(** * htb_presence: the presence reconciliation loop

    A shallow embedding of [htb_presence.py].  The script polls the
    platform's REST API and mirrors what it finds into the rich
    presence of a local chat client.  Everything of interest lives in
    [main]: two local variables ([connected_rpc],
    [last_machine]), a [while True] whose body is wrapped in a
    [try ... except KeyboardInterrupt ... except Exception], and calls
    into two external collaborators (the HTTP API and the presence
    client).

    Modelling choices.
    - The configuration read at import time (token, client id, API
      base) and the request headers and timeout are left out: the loop
      starts once they are in place, and a request shows here as its
      path and its outcome.
    - Values coming out of [r.json()] are Python values: [pyval].
    - The outside world is an oracle: for every call site of one loop
      iteration a [world] record says what that call does (returns a
      value or raises).
    - Effects are observed as a trace of [event]s.
    - The two local variables are the [session] state, threaded through
      a small state / trace / exception monad [M].  An exception leaves
      the assignments made before it in place, as in Python. *)

From Stdlib Require Import String Ascii ZArith List Bool Lia DecimalString.
Import ListNotations.

Open Scope string_scope.
Open Scope Z_scope.
Open Scope list_scope.

#[local] Set Warnings "-register-all".

(** ** Python values *)

Module Py.

(** The values [json.loads] produces.  Numbers are the integers. *)
Inductive pyval : Type :=
| PNone
| PBool (b : bool)
| PInt (z : Z)
| PStr (s : string)
| PList (l : list pyval)
| PDict (d : list (string * pyval)).

(** Exceptions.  Everything but [KeyboardInterrupt] derives from
    [Exception]; [LibraryError] stands for whatever else [requests] or
    [pypresence] raise (timeouts, closed pipes, ...). *)
Inductive exn : Type :=
| RuntimeError (msg : string)
| AttributeError
| TypeError
| JSONDecodeError
| LibraryError (name : string)
| KeyboardInterrupt.

Definition is_Exception (e : exn) : bool :=
  match e with
  | KeyboardInterrupt => false
  | _ => true
  end.

Inductive outcome (A : Type) : Type :=
| Returns (a : A)
| Raises (e : exn).
Arguments Returns {A} a.
Arguments Raises {A} e.

(** [bool(v)] *)
Definition truthy (v : pyval) : bool :=
  match v with
  | PNone => false
  | PBool b => b
  | PInt z => negb (z =? 0)
  | PStr s => negb (s =? "")%string
  | PList l => match l with [] => false | _ => true end
  | PDict d => match d with [] => false | _ => true end
  end.

Definition is_None (v : pyval) : bool :=
  match v with PNone => true | _ => false end.

Fixpoint lookup (k : string) (d : list (string * pyval)) : option pyval :=
  match d with
  | [] => None
  | (k', v) :: d' => if (k =? k')%string then Some v else lookup k d'
  end.

(** [v.get(k, default)]: only dicts have [get]. *)
Definition py_get (v : pyval) (k : string) (default : pyval) : outcome pyval :=
  match v with
  | PDict d => Returns (match lookup k d with Some x => x | None => default end)
  | _ => Raises AttributeError
  end.

(** [a == b].  [True == 1] and [False == 0] hold in Python; lists
    compare element by element, dicts key by key. *)
Fixpoint py_eq (a b : pyval) {struct a} : bool :=
  match a, b with
  | PNone, PNone => true
  | PBool x, PBool y => Bool.eqb x y
  | PBool x, PInt z => z =? (if x then 1 else 0)
  | PInt z, PBool y => z =? (if y then 1 else 0)
  | PInt x, PInt y => x =? y
  | PStr s, PStr t => (s =? t)%string
  | PList l1, PList l2 =>
      (fix all2 (xs ys : list pyval) {struct xs} : bool :=
         match xs, ys with
         | [], [] => true
         | x :: xs', y :: ys' => py_eq x y && all2 xs' ys'
         | _, _ => false
         end) l1 l2
  | PDict d1, PDict d2 =>
      (length d1 =? length d2)%nat &&
      (fix sub (es : list (string * pyval)) {struct es} : bool :=
         match es with
         | [] => true
         | (k, v) :: es' =>
             match lookup k d2 with
             | Some v' => py_eq v v'
             | None => false
             end && sub es'
         end) d1
  | _, _ => false
  end.

Fixpoint chars (s : string) : list pyval :=
  match s with
  | EmptyString => []
  | String c s' => PStr (String c EmptyString) :: chars s'
  end.

(** What [for rec in v] walks over: the items of a list, the keys of
    a dict, the characters of a string; the rest is not iterable. *)
Definition py_iter (v : pyval) : outcome (list pyval) :=
  match v with
  | PList l => Returns l
  | PDict d => Returns (map (fun kv => PStr (fst kv)) d)
  | PStr s => Returns (chars s)
  | _ => Raises TypeError
  end.

Definition str_of_int (z : Z) : string :=
  NilZero.string_of_int (Z.to_int z).

End Py.
Export Py.

(** ** The outside world and what the loop does to it *)

(** The keyword arguments of [rpc.update]; [None] is an argument that
    was not passed. *)
Record presence : Type := mkPresence {
  details : option string;
  state : option string;
  large_image : option string;
  large_text : option string;
  small_image : option string;
  small_text : option pyval
}.

Inductive event : Type :=
| Print (line : string)
| PrintExn (line : string) (e : exn)
| PrintVal (line : string) (v : pyval)
| PrintTraceback
| HttpGet (path : string)
| RpcConnect
| RpcUpdate (p : presence)
| RpcClear
| Sleep (seconds : Z).

(** A [requests] response: [json = None] is a body [r.json()] cannot
    parse. *)
Record response : Type := mkResponse {
  status_code : Z;
  text : string;
  json : option pyval
}.

(** What each external call of one loop iteration does, should the
    iteration reach it.  [str()] of a list or of a dict is the
    interpreter's [repr]; the script never looks at the result, it only
    passes it on, so the world supplies it too. *)
Record world : Type := mkWorld {
  container_repr : pyval -> string;    (* str() of a list or a dict *)
  connect_result : outcome unit;       (* rpc.connect(), line 78 *)
  reconnect_sleep : outcome unit;      (* time.sleep(3), line 83 *)
  user_info_reply : outcome response;  (* GET /user/info *)
  connection_reply : outcome response; (* GET /user/connection/status *)
  active_reply : outcome response;     (* GET /machines/active *)
  clear_result : outcome unit;         (* rpc.clear(), line 106 *)
  update_result : outcome unit;        (* rpc.update(...), lines 110, 149, 154 *)
  activity_reply : outcome response;   (* GET /profile/activity/<id> *)
  poll_sleep : outcome unit;           (* time.sleep(5) / time.sleep(10), lines 111, 156 *)
  cleanup_clear_result : outcome unit; (* rpc.clear() in a handler, lines 161, 168 *)
  retry_sleep : outcome unit           (* time.sleep(5), line 171 *)
}.

(** The local variables of [main] that outlive an iteration. *)
Record session : Type := mkSession {
  connected_rpc : bool;
  last_machine : pyval
}.

Definition initial_session : session :=
  {| connected_rpc := false; last_machine := PNone |}.

(** ** A state, trace and exception monad *)

Definition run (A : Type) : Type := (list event * session * outcome A)%type.

Definition trace_of {S R} (r : list event * S * R) : list event := fst (fst r).
Definition session_of {R} (r : list event * session * R) : session := snd (fst r).
Definition result_of {S R} (r : list event * S * R) : R := snd r.

Definition after {A} (t : list event) (r : run A) : run A :=
  (t ++ trace_of r, session_of r, result_of r).

Definition M (A : Type) : Type := session -> run A.

Definition ret {A} (a : A) : M A := fun st => ([], st, Returns a).

Definition raise {A} (e : exn) : M A := fun st => ([], st, Raises e).

Definition bind {A B} (m : M A) (f : A -> M B) : M B :=
  fun st =>
    match m st with
    | (t, st', Returns a) => after t (f a st')
    | (t, st', Raises e) => (t, st', Raises e)
    end.

Notation "x <- m ;; k" := (bind m (fun x => k))
  (at level 61, m at next level, right associativity).
Notation "m ;; k" := (bind m (fun _ => k))
  (at level 61, right associativity).

Definition lift {A} (o : outcome A) : M A := fun st => ([], st, o).

Definition emit (ev : event) : M unit := fun st => ([ev], st, Returns tt).

(** An external call: it shows in the trace whether it returns or
    raises. *)
Definition call {A} (ev : event) (o : outcome A) : M A := emit ev ;; lift o.

Definition get_session : M session := fun st => ([], st, Returns st).

Definition set_connected_rpc (b : bool) : M unit :=
  fun st => ([], {| connected_rpc := b; last_machine := last_machine st |}, Returns tt).

Definition set_last_machine (v : pyval) : M unit :=
  fun st => ([], {| connected_rpc := connected_rpc st; last_machine := v |}, Returns tt).

(** [try: m except Exception as e: h e] *)
Definition try_except {A} (m : M A) (h : exn -> M A) : M A :=
  fun st =>
    match m st with
    | (t, st', Raises e) =>
        if is_Exception e then after t (h e st') else (t, st', Raises e)
    | r => r
    end.

(** [try: m except: pass] *)
Definition try_pass (m : M unit) : M unit :=
  fun st =>
    match m st with
    | (t, st', _) => (t, st', Returns tt)
    end.

Definition sleep (seconds : Z) (o : outcome unit) : M unit := call (Sleep seconds) o.

(** How an iteration of [while True] ends. *)
Inductive control : Type :=
| Continue               (* on to the next iteration *)
| Break                  (* [break]: [main] returns *)
| Uncaught (e : exn).    (* an exception leaves [main] *)

(** The two completion flags of the active machine. *)
Record activity_flags : Type := mkFlags {
  flag_user : bool;
  flag_root : bool
}.

Definition no_flags : activity_flags := {| flag_user := false; flag_root := false |}.

(** ** The program *)

(** [f"{v}"] *)
Definition py_str (w : world) (v : pyval) : string :=
  match v with
  | PNone => "None"
  | PBool true => "True"
  | PBool false => "False"
  | PInt z => str_of_int z
  | PStr s => s
  | _ => container_repr w v
  end.

(** *** Small helpers (lines 38-64) *)

Definition api_get (path : string) (reply : outcome response) : M response :=
  call (HttpGet path) reply.

(** [r.json()] *)
Definition json_of (r : response) : outcome pyval :=
  match json r with
  | Some j => Returns j
  | None => Raises JSONDecodeError
  end.

(** [RuntimeError(f"<what> {r.status_code}: {r.text[:200]}")]; a
    character of the text is a character of the string here. *)
Definition status_error (what : string) (r : response) : exn :=
  RuntimeError
    (what ++ " " ++ str_of_int (status_code r) ++ ": " ++ substring 0 200 (text r))%string.

Definition get_user_info (w : world) : M pyval :=
  r <- api_get "/user/info" (user_info_reply w) ;;
  if negb (status_code r =? 200) then raise (status_error "user/info" r)
  else j <- lift (json_of r) ;; lift (py_get j "info" PNone).

Definition get_connection_status (w : world) : M pyval :=
  r <- api_get "/user/connection/status" (connection_reply w) ;;
  if negb (status_code r =? 200) then raise (status_error "connection/status" r)
  else j <- lift (json_of r) ;; lift (py_get j "status" PNone).

Definition get_active_machine (w : world) : M pyval :=
  r <- api_get "/machines/active" (active_reply w) ;;
  if status_code r =? 404 then ret PNone
  else if negb (status_code r =? 200) then raise (status_error "machines/active" r)
  else
    j <- lift (json_of r) ;;
    info <- lift (py_get j "info" PNone) ;;
    ret (if negb (truthy info) then PNone else info).

(** *** The body of the loop (lines 76-156) *)

(** Lines 76-84.  [false] is the [continue] of line 84. *)
Definition ensure_connected (w : world) : M bool :=
  st <- get_session ;;
  if negb (connected_rpc st) then
    try_except
      (call RpcConnect (connect_result w) ;;
       set_connected_rpc true ;;
       emit (Print "Connected to Discord RPC") ;;
       ret true)
      (fun e =>
         emit (PrintExn "Discord RPC connect failed, retrying..." e) ;;
         sleep 3 (reconnect_sleep w) ;;
         ret false)
  else ret true.

(** The arguments of the [rpc.update] of line 110. *)
Definition connected_presence : presence :=
  {| details := Some "Connected to HTB";
     state := Some "Waiting for active machine";
     large_image := None;
     large_text := Some "Hack The Box";
     small_image := None;
     small_text := None |}.

(** Lines 104-112: [if not active]. *)
Definition no_active_machine (w : world) (connection : pyval) : M unit :=
  st <- get_session ;;
  (if negb (is_None (last_machine st)) then
     emit (Print "No active machine found -> clearing RPC") ;;
     call RpcClear (clear_result w) ;;
     set_last_machine PNone
   else ret tt) ;;
  (if truthy connection then call (RpcUpdate connected_presence) (update_result w)
   else ret tt) ;;
  sleep 5 (poll_sleep w).

(** Lines 116-117.  A truthy avatar that is not a string has no
    [startswith]. *)
Definition resolve_avatar (avatar : pyval) : outcome string :=
  let machine_avatar := if truthy avatar then avatar else PStr "" in
  match machine_avatar with
  | PStr s =>
      Returns (if String.prefix "/" s then ("https://app.hackthebox.com" ++ s)%string else s)
  | _ => Raises AttributeError
  end.

(** Lines 126-132, the [for rec in act] loop.  The flags are a dict
    updated in place: when a record raises, the flags set by the
    records before it stay set. *)
Fixpoint scan_activity (machine_name : pyval) (act : list pyval) (flags : activity_flags)
  : activity_flags * option exn :=
  match act with
  | [] => (flags, None)
  | rec :: rest =>
      match py_get rec "name" PNone with
      | Raises e => (flags, Some e)
      | Returns name =>
          if py_eq name machine_name then
            match py_get rec "type" PNone with
            | Raises e => (flags, Some e)
            | Returns typ =>
                if py_eq typ (PStr "user") then
                  scan_activity machine_name rest
                    {| flag_user := true; flag_root := flag_root flags |}
                else if py_eq typ (PStr "root") then
                  scan_activity machine_name rest
                    {| flag_user := flag_user flags; flag_root := true |}
                else scan_activity machine_name rest flags
            end
          else scan_activity machine_name rest flags
      end
  end.

(** The loop as a step of the [try] block of line 122: an exception
    raised by a record goes to the enclosing [except Exception: pass]
    with the flags as they are. *)
Definition scanned (r : activity_flags * option exn) : M activity_flags :=
  match r with
  | (flags, None) => ret flags
  | (flags, Some e) => if is_Exception e then ret flags else raise e
  end.

(** Lines 121-134.  An exception before the loop finds the flags as
    they were initialised. *)
Definition fetch_activity_flags (w : world) (user machine_name : pyval) : M activity_flags :=
  try_except
    (uid <- lift (py_get user "id" PNone) ;;
     apir <- api_get ("/profile/activity/" ++ py_str w uid)%string (activity_reply w) ;;
     if status_code apir =? 200 then
       j <- lift (json_of apir) ;;
       profile <- lift (py_get j "profile" (PDict [])) ;;
       act <- lift (py_get profile "activity" (PList [])) ;;
       recs <- lift (py_iter act) ;;
       scanned (scan_activity machine_name recs no_flags)
     else ret no_flags)
    (fun _ => ret no_flags).

Definition show_flag (b : bool) : string := if b then "🟢" else "🔴".

(** Lines 136-144. *)
Definition render (w : world) (machine_name : pyval) (machine_avatar : string)
           (flags : activity_flags) (small_text : pyval) : presence :=
  {| details := Some (py_str w machine_name);
     state := Some ("User: " ++ show_flag (flag_user flags)
                    ++ " | Root: " ++ show_flag (flag_root flags))%string;
     large_image := Some (if (machine_avatar =? "")%string then "htb_logo" else machine_avatar);
     large_text := None;
     small_image := Some "";
     small_text := Some small_text |}.

(** Lines 146-156: both branches of the [if] push; only the first
    logs and records the name. *)
Definition push_presence (w : world) (machine_name : pyval) (p : presence) : M unit :=
  st <- get_session ;;
  (if negb (py_eq machine_name (last_machine st)) then
     emit (PrintVal "Updating presence for:" machine_name) ;;
     call (RpcUpdate p) (update_result w) ;;
     set_last_machine machine_name
   else call (RpcUpdate p) (update_result w)) ;;
  sleep 10 (poll_sleep w).

(** Lines 115-156: there is an active machine. *)
Definition active_machine (w : world) (user active : pyval) : M unit :=
  machine_name <- lift (py_get active "name" PNone) ;;
  avatar <- lift (py_get active "avatar" PNone) ;;
  machine_avatar <- lift (resolve_avatar avatar) ;;
  flags <- fetch_activity_flags w user machine_name ;;
  small_text <- (if truthy user then lift (py_get user "name" PNone) else ret (PStr "")) ;;
  push_presence w machine_name (render w machine_name machine_avatar flags small_text).

(** Lines 87-93. *)
Definition fetch_user (w : world) : M pyval :=
  try_except (get_user_info w)
    (fun e => emit (PrintExn "Failed to fetch user info:" e) ;; raise e).

(** Lines 95-100. *)
Definition fetch_connection (w : world) : M pyval :=
  try_except (get_connection_status w)
    (fun e => emit (PrintExn "Failed to fetch connection status:" e) ;; ret (PBool false)).

(** Lines 102-156, once [user] and [connection] are known. *)
Definition reconcile (w : world) (user connection : pyval) : M unit :=
  active <- get_active_machine w ;;
  if negb (truthy active) then no_active_machine w connection
  else active_machine w user active.

(** Lines 76-156, the [try] block. *)
Definition try_body (w : world) : M unit :=
  ok <- ensure_connected w ;;
  if ok then
    user <- fetch_user w ;;
    connection <- fetch_connection w ;;
    reconcile w user connection
  else ret tt.

(** *** The handlers (lines 158-171) and the loop *)

(** Lines 158-163, up to the [break]. *)
Definition on_interrupt (w : world) : M unit :=
  emit (Print "Exiting.") ;;
  try_pass (call RpcClear (cleanup_clear_result w)).

(** Lines 164-171. *)
Definition on_exception (w : world) (exc : exn) : M unit :=
  emit (PrintExn "Error (will retry):" exc) ;;
  emit PrintTraceback ;;
  try_pass (call RpcClear (cleanup_clear_result w)) ;;
  sleep 5 (retry_sleep w).

(** The [except] clauses of lines 158-171, applied to what the [try]
    block did. *)
Definition handle (w : world) (r : run unit) : list event * session * control :=
  match r with
  | (t, st', Returns _) => (t, st', Continue)
  | (t, st', Raises KeyboardInterrupt) =>
      let h := on_interrupt w st' in
      (t ++ trace_of h, session_of h, Break)
  | (t, st', Raises exc) =>
      let h := on_exception w exc st' in
      (t ++ trace_of h, session_of h,
       match result_of h with
       | Returns _ => Continue
       | Raises e => Uncaught e
       end)
  end.

(** One turn of [while True] (lines 73-171). *)
Definition loop_iteration (w : world) (st : session) : list event * session * control :=
  handle w (try_body w st).

(** The loop over the worlds of its first iterations; it stops early
    on [break] or on an exception nobody catches. *)
Fixpoint main_loop (ws : list world) (st : session) : list event * session * control :=
  match ws with
  | [] => ([], st, Continue)
  | w :: ws' =>
      match loop_iteration w st with
      | (t, st', Continue) =>
          match main_loop ws' st' with
          | (t', st'', c) => (t ++ t', st'', c)
          end
      | stopped => stopped
      end
  end.

(** Lines 67-73. *)
Definition main (ws : list world) : list event * session * control :=
  match main_loop ws initial_session with
  | (t, st, c) => (Print "Starting htb-presence..." :: t, st, c)
  end.

(** ** Reading traces and stating properties *)

Definition is_clear (ev : event) : bool :=
  match ev with RpcClear => true | _ => false end.

Definition is_connect (ev : event) : bool :=
  match ev with RpcConnect => true | _ => false end.

(** How many times a trace calls [rpc.clear()], [rpc.connect()]. *)
Definition clears (t : list event) : nat := length (filter is_clear t).
Definition connects (t : list event) : nat := length (filter is_connect t).

(** The arguments of the [rpc.update] calls of a trace, in order. *)
Fixpoint pushed (t : list event) : list presence :=
  match t with
  | [] => []
  | RpcUpdate p :: t' => p :: pushed t'
  | _ :: t' => pushed t'
  end.

(** Does the trace push a presence with these [details] and [state]? *)
Definition shows (d s : string) (p : presence) : bool :=
  match details p, state p with
  | Some d', Some s' => ((d =? d') && (s =? s'))%string
  | _, _ => false
  end.

Definition pushes (d s : string) (t : list event) : bool :=
  existsb (shows d s) (pushed t).

(** The iteration that starts in [st] gets as far as line 102, with
    [user] and [connection] in hand: the presence client is or gets
    connected, the user-info fetch succeeds and the connection-status
    fetch lets the iteration go on. *)
Definition polls (w : world) (st : session) (user connection : pyval) : Prop :=
  result_of (ensure_connected w st) = Returns true /\
  result_of (get_user_info w st) = Returns user /\
  result_of (fetch_connection w st) = Returns connection.

(** ... and line 102 finds [active]. *)
Definition finds (w : world) (st : session) (active : pyval) : Prop :=
  result_of (get_active_machine w st) = Returns active.

(** The presence client does what it is asked and nothing interrupts
    the sleep that ends the iteration. *)
Definition undisturbed (w : world) : Prop :=
  clear_result w = Returns tt /\
  update_result w = Returns tt /\
  poll_sleep w = Returns tt.

(** Every iteration of [ws], run from [st] on, is an undisturbed one
    that finds no active machine. *)
Fixpoint each_absent (ws : list world) (st : session) : Prop :=
  match ws with
  | [] => True
  | w :: ws' =>
      (exists user connection, polls w st user connection) /\
      finds w st PNone /\
      undisturbed w /\
      each_absent ws' (session_of (loop_iteration w st))
  end.


(** The iteration has an active machine to show: line 102 finds the
    truthy [active], which has a [name] and an [avatar] that resolves,
    and the display name of [user] can be read (line 143). *)
Definition presents (w : world) (st : session) (user active machine_name : pyval)
           (machine_avatar : string) (display_name : pyval) : Prop :=
  finds w st active /\
  truthy active = true /\
  py_get active "name" PNone = Returns machine_name /\
  (exists avatar, py_get active "avatar" PNone = Returns avatar /\
                  resolve_avatar avatar = Returns machine_avatar) /\
  (if truthy user then py_get user "name" PNone else Returns (PStr "")) = Returns display_name.

(** The activity scan of the iteration comes back with [flags]. *)
Definition scans (w : world) (st : session) (user machine_name : pyval)
           (flags : activity_flags) : Prop :=
  result_of (fetch_activity_flags w user machine_name st) = Returns flags.

(** Computations that only read.

    A computation [reads] when it leaves the session alone, does the
    same whatever the session is, and its trace keeps away from the
    presence client and the clock. *)

Definition harmless (ev : event) : bool :=
  match ev with
  | Print _ | PrintExn _ _ | PrintVal _ _ | PrintTraceback | HttpGet _ => true
  | RpcConnect | RpcUpdate _ | RpcClear | Sleep _ => false
  end.

Definition reads {A} (m : M A) : Prop :=
  exists t r, forallb harmless t = true /\ forall st, m st = (t, st, r).

(** A computation keeps the connection when, started with the flag
    set, it ends with the flag set and has not called [rpc.connect()]. *)
Definition keeps_connection {A} (m : M A) : Prop :=
  forall st,
    connected_rpc st = true ->
    connected_rpc (session_of (m st)) = true /\ connects (trace_of (m st)) = 0%nat.

(** ** Sample worlds *)

Definition ok (j : pyval) : outcome response :=
  Returns {| status_code := 200; text := ""; json := Some j |}.

Definition failed (code : Z) : outcome response :=
  Returns {| status_code := code; text := "Server Error"; json := None |}.

Definition player : pyval := PDict [("id", PInt 7); ("name", PStr "player")].

Definition machine (name avatar : string) : pyval :=
  PDict [("info", PDict [("name", PStr name); ("avatar", PStr avatar)])].

Definition nothing_active : pyval := PDict [("info", PNone)].

Definition activity (records : list pyval) : pyval :=
  PDict [("profile", PDict [("activity", PList records)])].

Definition own (name typ : string) : pyval :=
  PDict [("name", PStr name); ("type", PStr typ)].

(** A world where the user is logged in and on the VPN, the sleeps run
    to their end and the handlers' own calls work; the rest is given. *)
Definition sample (connect : outcome unit) (user_info connection active log : outcome response)
           (clear update : outcome unit) : world :=
  {| container_repr := fun _ => "[...]";
     connect_result := connect;
     reconnect_sleep := Returns tt;
     user_info_reply := user_info;
     connection_reply := connection;
     active_reply := active;
     clear_result := clear;
     update_result := update;
     activity_reply := log;
     poll_sleep := Returns tt;
     cleanup_clear_result := Returns tt;
     retry_sleep := Returns tt |}.

Definition online (active log : outcome response) (clear update : outcome unit) : world :=
  sample (Returns tt) (ok (PDict [("info", player)])) (ok (PDict [("status", PBool true)]))
         active log clear update.

(** The machine Lame is active and its user flag is owned. *)
Definition on_lame : world :=
  online (ok (machine "Lame" "/img/lame.png")) (ok (activity [own "Lame" "user"]))
         (Returns tt) (Returns tt).

(** No machine is active. *)
Definition idle : world :=
  online (ok nothing_active) (ok (activity [])) (Returns tt) (Returns tt).

(** The chat client has gone away: [rpc.update] raises. *)
Definition pipe_closed : outcome unit := Raises (LibraryError "PipeClosed").

Definition idle_update_fails : world :=
  online (ok nothing_active) (ok (activity [])) (Returns tt) pipe_closed.

Definition idle_clear_fails : world :=
  online (ok nothing_active) (ok (activity [])) pipe_closed (Returns tt).

Definition on_lame_update_fails : world :=
  online (ok (machine "Lame" "/img/lame.png")) (ok (activity [own "Lame" "user"]))
         (Returns tt) pipe_closed.

Definition on_legacy_update_fails : world :=
  online (ok (machine "Legacy" "")) (ok (activity [])) (Returns tt) pipe_closed.

(** No machine is active and Ctrl-C arrives during the sleep that ends
    the iteration. *)
Definition interrupted_idle : world :=
  {| container_repr := fun _ => "[...]";
     connect_result := Returns tt;
     reconnect_sleep := Returns tt;
     user_info_reply := ok (PDict [("info", player)]);
     connection_reply := ok (PDict [("status", PBool true)]);
     active_reply := ok nothing_active;
     clear_result := Returns tt;
     update_result := Returns tt;
     activity_reply := ok (activity []);
     poll_sleep := Raises KeyboardInterrupt;
     cleanup_clear_result := Returns tt;
     retry_sleep := Returns tt |}.

Definition connected_idle : session := {| connected_rpc := true; last_machine := PNone |}.
Definition connected_on (name : string) : session :=
  {| connected_rpc := true; last_machine := PStr name |}.

(** The user-info fetch is refused. *)
Definition user_info_down : world :=
  sample (Returns tt) (failed 401) (ok (PDict [("status", PBool true)]))
         (ok nothing_active) (ok (activity [])) (Returns tt) (Returns tt).

(** The active-machine fetch answers 404, or 502. *)
Definition not_found : world :=
  online (Returns {| status_code := 404; text := "Not Found"; json := None |})
         (ok (activity [])) (Returns tt) (Returns tt).

Definition bad_gateway : world :=
  online (failed 502) (ok (activity [])) (Returns tt) (Returns tt).

(** The connection-status fetch fails. *)
Definition status_down : world :=
  sample (Returns tt) (ok (PDict [("info", player)])) (failed 500)
         (ok nothing_active) (ok (activity [])) (Returns tt) (Returns tt).


(** Lame is active and has no avatar. *)
Definition on_lame_bare : world :=
  online (ok (PDict [("info", PDict [("name", PStr "Lame")])]))
         (ok (activity [own "Lame" "user"])) (Returns tt) (Returns tt).

(** ** Counting what an iteration does *)

Definition is_update (ev : event) : bool :=
  match ev with RpcUpdate _ => true | _ => false end.

Definition is_request (ev : event) : bool :=
  match ev with HttpGet _ => true | _ => false end.

Definition is_sleep (ev : event) : bool :=
  match ev with Sleep _ => true | _ => false end.

Definition count (P : event -> bool) (t : list event) : nat := length (filter P t).

(** How many HTTP requests a trace makes, how often it sleeps. *)
Definition requests (t : list event) : nat := count is_request t.
Definition sleeps (t : list event) : nat := count is_sleep t.

(** The seconds a trace asks [time.sleep] for, in all. *)
Fixpoint seconds (t : list event) : Z :=
  match t with
  | [] => 0
  | Sleep s :: t' => s + seconds t'
  | _ :: t' => seconds t'
  end.

(** The chat client is not there: [rpc.connect()] raises and the wait
    of line 83 runs to its end. *)
Definition refused (w : world) : Prop :=
  (exists e, connect_result w = Raises e /\ is_Exception e = true) /\
  reconnect_sleep w = Returns tt.

(** [bounded P n m]: whatever the session, [m] produces at most [n]
    events that satisfy [P]. *)
Definition bounded {A} (P : event -> bool) (n : nat) (m : M A) : Prop :=
  forall st, (count P (trace_of (m st)) <= n)%nat.

(** [slept m]: when [m] returns, it has called [time.sleep]. *)
Definition slept {A} (m : M A) : Prop :=
  forall st a, result_of (m st) = Returns a -> (1 <= sleeps (trace_of (m st)))%nat.

(** How [last_machine] may differ from [old] after a computation with
    trace [t] that ends in session [st']: not at all; or it is [None],
    the [rpc.clear()] of line 106 returns and [t] calls it; or
    [rpc.update] returns and [t] pushes a presence whose details are the
    new value. *)
Definition recorded (w : world) (old : pyval) (t : list event) (st' : session) : Prop :=
  last_machine st' = old \/
  (last_machine st' = PNone /\ clear_result w = Returns tt /\ (1 <= clears t)%nat) \/
  (update_result w = Returns tt /\
   exists p, In p (pushed t) /\ details p = Some (py_str w (last_machine st'))).

Definition tracks {A} (w : world) (m : M A) : Prop :=
  forall st, recorded w (last_machine st) (trace_of (m st)) (session_of (m st)).

(** Line 39: [API_BASE.rstrip("/") + path]. *)
Fixpoint rstrip (c : Ascii.ascii) (s : string) : string :=
  match s with
  | EmptyString => EmptyString
  | String a s' =>
      match rstrip c s' with
      | EmptyString => if Ascii.eqb a c then EmptyString else String a EmptyString
      | r => String a r
      end
  end.

Definition request_url (api_base path : string) : string :=
  (rstrip "/"%char api_base ++ path)%string.

Fixpoint slashes (n : nat) : string :=
  match n with
  | O => EmptyString
  | S n' => String "/"%char (slashes n')
  end.

Fixpoint last_char (s : string) : option Ascii.ascii :=
  match s with
  | EmptyString => None
  | String a EmptyString => Some a
  | String _ s' => last_char s'
  end.

Definition is_dict (v : pyval) : bool :=
  match v with PDict _ => true | _ => false end.

(** A log is well formed when each of its records is an object. *)
Definition well_formed (act : list pyval) : bool := forallb is_dict act.

(** Does the record carry this machine's name and this type? *)
Definition owns (machine_name : pyval) (typ : string) (rec : pyval) : bool :=
  match py_get rec "name" PNone, py_get rec "type" PNone with
  | Returns name, Returns t => py_eq name machine_name && py_eq t (PStr typ)
  | _, _ => false
  end.

(** The chat client is not running. *)
Definition no_client : world :=
  sample (Raises (LibraryError "DiscordNotFound")) (ok (PDict [("info", player)]))
         (ok (PDict [("status", PBool true)])) (ok nothing_active) (ok (activity []))
         (Returns tt) (Returns tt).

(** Ctrl-C arrives while [rpc.connect()] runs. *)
Definition interrupted_connect : world :=
  sample (Raises KeyboardInterrupt) (ok (PDict [("info", player)]))
         (ok (PDict [("status", PBool true)])) (ok nothing_active) (ok (activity []))
         (Returns tt) (Returns tt).

(** Ctrl-C arrives during the connection-status request, or during the
    activity-log request. *)
Definition interrupted_status : world :=
  sample (Returns tt) (ok (PDict [("info", player)])) (Raises KeyboardInterrupt)
         (ok nothing_active) (ok (activity [])) (Returns tt) (Returns tt).

Definition interrupted_activity : world :=
  online (ok (machine "Lame" "/img/lame.png")) (Raises KeyboardInterrupt)
         (Returns tt) (Returns tt).

(** The user-info fetch is refused and Ctrl-C arrives during the wait
    of line 171. *)
Definition interrupted_retry : world :=
  {| container_repr := fun _ => "[...]";
     connect_result := Returns tt;
     reconnect_sleep := Returns tt;
     user_info_reply := failed 401;
     connection_reply := ok (PDict [("status", PBool true)]);
     active_reply := ok nothing_active;
     clear_result := Returns tt;
     update_result := Returns tt;
     activity_reply := ok (activity []);
     poll_sleep := Returns tt;
     cleanup_clear_result := Returns tt;
     retry_sleep := Raises KeyboardInterrupt |}.

(** The platform answers with an empty object for the active machine. *)
Definition empty_info : world :=
  online (ok (PDict [("info", PDict [])])) (ok (activity [])) (Returns tt) (Returns tt).

(** Lame is active and the second record of the log is not an object. *)
Definition broken_log : world :=
  online (ok (machine "Lame" "/img/lame.png"))
         (ok (activity [own "Lame" "user"; PInt 5; own "Lame" "root"]))
         (Returns tt) (Returns tt).

(** The user info comes back null while Lame is active. *)
Definition anonymous : world :=
  sample (Returns tt) (ok (PDict [("info", PNone)])) (ok (PDict [("status", PBool true)]))
         (ok (machine "Lame" "/img/lame.png")) (ok (activity [own "Lame" "user"]))
         (Returns tt) (Returns tt).

(** The active machine has no name. *)
Definition nameless : world :=
  online (ok (PDict [("info", PDict [("avatar", PStr "/img/lame.png")])]))
         (ok (activity [])) (Returns tt) (Returns tt).

(** * Properties *)

(** ** Basic facts about the monad *)

Lemma after_nil {A} (r : run A) : after [] r = r.
Proof. destruct r as [[t st] o]. reflexivity. Qed.

Lemma after_after {A} (t1 t2 : list event) (r : run A) :
  after t1 (after t2 r) = after (t1 ++ t2) r.
Proof.
  destruct r as [[t st] o]. unfold after, trace_of, session_of, result_of; simpl.
  now rewrite List.app_assoc.
Qed.

Lemma trace_of_run {S R} t (s : S) (r : R) : trace_of (t, s, r) = t.
Proof. reflexivity. Qed.

Lemma session_of_run {R} t s (r : R) : session_of (t, s, r) = s.
Proof. reflexivity. Qed.

Lemma result_of_run {S R} t (s : S) (r : R) : result_of (t, s, r) = r.
Proof. reflexivity. Qed.

(** [project] reads the components of a run that is written out;
    [run_monad] unfolds the monad down to triples. *)
Ltac project := rewrite ?trace_of_run, ?session_of_run, ?result_of_run.

Ltac run_monad :=
  unfold bind, call, emit, lift, ret, raise, try_except, try_pass, sleep,
    get_session, set_last_machine, set_connected_rpc, after,
    trace_of, session_of, result_of in *;
  simpl in *.

Lemma run_eta {A} (r : run A) : r = (trace_of r, session_of r, result_of r).
Proof. destruct r as [[t st] o]. reflexivity. Qed.

Lemma bind_returns {A B} (m : M A) (f : A -> M B) st t st' a :
  m st = (t, st', Returns a) -> (x <- m ;; f x) st = after t (f a st').
Proof. intros H. unfold bind. now rewrite H. Qed.

Lemma bind_raises {A B} (m : M A) (f : A -> M B) st t st' e :
  m st = (t, st', Raises e) -> (x <- m ;; f x) st = (t, st', Raises e).
Proof. intros H. unfold bind. now rewrite H. Qed.

Lemma clears_app t1 t2 : clears (t1 ++ t2) = (clears t1 + clears t2)%nat.
Proof. unfold clears. now rewrite filter_app, length_app. Qed.

Lemma connects_app t1 t2 : connects (t1 ++ t2) = (connects t1 + connects t2)%nat.
Proof. unfold connects. now rewrite filter_app, length_app. Qed.

Lemma pushed_app t1 t2 : pushed (t1 ++ t2) = pushed t1 ++ pushed t2.
Proof.
  induction t1 as [|ev t1 IH]; simpl; [reflexivity|].
  destruct ev; simpl; now rewrite ?IH.
Qed.

(** ** Computations that only read *)

Lemma reads_ret {A} (a : A) : reads (ret a).
Proof. now exists [], (Returns a). Qed.

Lemma reads_raise {A} e : reads (@raise A e).
Proof. now exists [], (Raises e). Qed.

Lemma reads_lift {A} (o : outcome A) : reads (lift o).
Proof. now exists [], o. Qed.

Lemma reads_emit ev : harmless ev = true -> reads (emit ev).
Proof. intros H. exists [ev], (Returns tt). simpl. now rewrite H. Qed.

Lemma reads_bind {A B} (m : M A) (f : A -> M B) :
  reads m -> (forall a, reads (f a)) -> reads (x <- m ;; f x).
Proof.
  intros (t & r & Ht & Hm) Hf. destruct r as [a|e].
  - destruct (Hf a) as (t' & r' & Ht' & Hfa).
    exists (t ++ t'), r'. split; [now rewrite forallb_app, Ht, Ht'|].
    intros st. unfold bind. now rewrite Hm, Hfa.
  - exists t, (Raises e). split; [assumption|].
    intros st. unfold bind. now rewrite Hm.
Qed.

Lemma reads_call {A} ev (o : outcome A) : harmless ev = true -> reads (call ev o).
Proof.
  intros H. unfold call. apply reads_bind; [now apply reads_emit|].
  intros _. apply reads_lift.
Qed.

Lemma reads_try_except {A} (m : M A) (h : exn -> M A) :
  reads m -> (forall e, reads (h e)) -> reads (try_except m h).
Proof.
  intros (t & r & Ht & Hm) Hh. destruct r as [a|e].
  - exists t, (Returns a). split; [assumption|].
    intros st. unfold try_except. now rewrite Hm.
  - destruct (is_Exception e) eqn:He.
    + destruct (Hh e) as (t' & r' & Ht' & Hhe).
      exists (t ++ t'), r'. split; [now rewrite forallb_app, Ht, Ht'|].
      intros st. unfold try_except. now rewrite Hm, He, Hhe.
    + exists t, (Raises e). split; [assumption|].
      intros st. unfold try_except. now rewrite Hm, He.
Qed.

Create HintDb reads.
#[local] Hint Resolve reads_ret reads_raise reads_lift reads_emit reads_call : reads.

Ltac reads_steps :=
  repeat first
    [ apply reads_bind; [|intros ?]
    | apply reads_try_except; [|intros ?]
    | match goal with
      | |- reads (if ?b then _ else _) => destruct b
      | |- reads (match ?x with _ => _ end) => destruct x
      end
    | solve [auto with reads] ].

Lemma reads_run {A} (m : M A) st :
  reads m -> m st = (trace_of (m initial_session), st, result_of (m initial_session)).
Proof. intros (t & r & _ & H). now rewrite (H st), (H initial_session). Qed.

Lemma reads_result {A} (m : M A) st st' :
  reads m -> result_of (m st) = result_of (m st').
Proof. intros (t & r & _ & H). now rewrite (H st), (H st'). Qed.

Lemma reads_trace {A} (m : M A) st st' :
  reads m -> trace_of (m st) = trace_of (m st').
Proof. intros (t & r & _ & H). now rewrite (H st), (H st'). Qed.

Lemma harmless_clears t : forallb harmless t = true -> clears t = 0%nat.
Proof.
  induction t as [|ev t IH]; [reflexivity|]. simpl.
  intros H. apply andb_prop in H as (H1 & H2).
  destruct ev; try discriminate; now apply IH.
Qed.

Lemma harmless_connects t : forallb harmless t = true -> connects t = 0%nat.
Proof.
  induction t as [|ev t IH]; [reflexivity|]. simpl.
  intros H. apply andb_prop in H as (H1 & H2).
  destruct ev; try discriminate; now apply IH.
Qed.

Lemma harmless_pushed t : forallb harmless t = true -> pushed t = [].
Proof.
  induction t as [|ev t IH]; [reflexivity|]. simpl.
  intros H. apply andb_prop in H as (H1 & H2).
  destruct ev; try discriminate; now apply IH.
Qed.

Lemma reads_harmless {A} (m : M A) st :
  reads m -> forallb harmless (trace_of (m st)) = true.
Proof. intros (t & r & Ht & H). now rewrite (H st). Qed.

Lemma get_user_info_reads w : reads (get_user_info w).
Proof. unfold get_user_info, api_get. reads_steps. Qed.

Lemma fetch_connection_reads w : reads (fetch_connection w).
Proof. unfold fetch_connection, get_connection_status, api_get. reads_steps. Qed.

Lemma get_active_machine_reads w : reads (get_active_machine w).
Proof. unfold get_active_machine, api_get. reads_steps. Qed.

Lemma fetch_activity_flags_reads w user machine_name :
  reads (fetch_activity_flags w user machine_name).
Proof. unfold fetch_activity_flags, scanned, api_get. reads_steps. Qed.

(** ** What the fetchers do *)

(** A fetch is one request; it leaves the session alone and its result
    does not depend on it. *)
Lemma get_user_info_run w st :
  get_user_info w st =
  ([HttpGet "/user/info"], st, result_of (get_user_info w initial_session)).
Proof.
  unfold get_user_info, api_get. run_monad.
  destruct (user_info_reply w) as [r|e]; simpl; [|reflexivity].
  destruct (negb (status_code r =? 200)); simpl; [reflexivity|].
  destruct (json_of r) as [j|e]; simpl; [|reflexivity].
  destruct (py_get j "info" PNone); reflexivity.
Qed.

Lemma get_connection_status_run w st :
  get_connection_status w st =
  ([HttpGet "/user/connection/status"], st,
   result_of (get_connection_status w initial_session)).
Proof.
  unfold get_connection_status, api_get. run_monad.
  destruct (connection_reply w) as [r|e]; simpl; [|reflexivity].
  destruct (negb (status_code r =? 200)); simpl; [reflexivity|].
  destruct (json_of r) as [j|e]; simpl; [|reflexivity].
  destruct (py_get j "status" PNone); reflexivity.
Qed.

Lemma get_active_machine_run w st :
  get_active_machine w st =
  ([HttpGet "/machines/active"], st, result_of (get_active_machine w initial_session)).
Proof.
  unfold get_active_machine, api_get. run_monad.
  destruct (active_reply w) as [r|e]; simpl; [|reflexivity].
  destruct (status_code r =? 404); simpl; [reflexivity|].
  destruct (negb (status_code r =? 200)); simpl; [reflexivity|].
  destruct (json_of r) as [j|e]; simpl; [|reflexivity].
  destruct (py_get j "info" PNone); reflexivity.
Qed.

Lemma get_user_info_any w st st' :
  result_of (get_user_info w st) = result_of (get_user_info w st').
Proof. apply reads_result, get_user_info_reads. Qed.

Lemma get_connection_status_any w st st' :
  result_of (get_connection_status w st) = result_of (get_connection_status w st').
Proof. now rewrite (get_connection_status_run w st), (get_connection_status_run w st'). Qed.

Lemma get_active_machine_any w st st' :
  result_of (get_active_machine w st) = result_of (get_active_machine w st').
Proof. apply reads_result, get_active_machine_reads. Qed.

(** ** The steps of the [try] block *)

Lemma fetch_user_returns w st user :
  result_of (get_user_info w st) = Returns user ->
  fetch_user w st = ([HttpGet "/user/info"], st, Returns user).
Proof.
  intros H. rewrite (get_user_info_any w st initial_session) in H.
  unfold fetch_user, try_except. rewrite get_user_info_run, H. reflexivity.
Qed.

Lemma fetch_user_raises w st e :
  result_of (get_user_info w st) = Raises e ->
  is_Exception e = true ->
  fetch_user w st =
  ([HttpGet "/user/info"; PrintExn "Failed to fetch user info:" e], st, Raises e).
Proof.
  intros H He. rewrite (get_user_info_any w st initial_session) in H.
  unfold fetch_user, try_except. rewrite get_user_info_run, H, He. reflexivity.
Qed.

Lemma fetch_connection_run w st :
  fetch_connection w st =
  (trace_of (fetch_connection w initial_session), st,
   result_of (fetch_connection w initial_session)).
Proof. apply reads_run, fetch_connection_reads. Qed.

Lemma fetch_connection_any w st st' :
  result_of (fetch_connection w st) = result_of (fetch_connection w st').
Proof. apply reads_result, fetch_connection_reads. Qed.

Lemma fetch_connection_trace w st st' :
  trace_of (fetch_connection w st) = trace_of (fetch_connection w st').
Proof. apply reads_trace, fetch_connection_reads. Qed.

Lemma ensure_connected_already w st :
  connected_rpc st = true -> ensure_connected w st = ([], st, Returns true).
Proof. intros H. unfold ensure_connected. run_monad. now rewrite H. Qed.

(** When lines 76-84 let the iteration go on, the client is connected
    and [last_machine] is what it was. *)
Lemma ensure_connected_true w st :
  result_of (ensure_connected w st) = Returns true ->
  connected_rpc (session_of (ensure_connected w st)) = true /\
  last_machine (session_of (ensure_connected w st)) = last_machine st.
Proof.
  unfold ensure_connected. run_monad.
  destruct (connected_rpc st) eqn:Hc; simpl; [auto|].
  destruct (connect_result w) as [[]|e]; simpl; [auto|].
  destruct (is_Exception e); simpl; [|discriminate].
  destruct (reconnect_sleep w); simpl; discriminate.
Qed.

Lemma try_body_polls w st user connection :
  polls w st user connection ->
  try_body w st =
  after (trace_of (ensure_connected w st)
           ++ HttpGet "/user/info" :: trace_of (fetch_connection w st))
        (reconcile w user connection (session_of (ensure_connected w st))).
Proof.
  intros (Hc & Hu & Hs). unfold try_body.
  rewrite (bind_returns _ _ st _ _ true (eq_trans (run_eta _) (f_equal _ Hc))).
  set (st0 := session_of (ensure_connected w st)).
  rewrite (get_user_info_any w st st0) in Hu.
  rewrite (bind_returns _ _ st0 _ _ user (fetch_user_returns w st0 user Hu)).
  rewrite (fetch_connection_any w st st0) in Hs.
  rewrite (fetch_connection_trace w st st0).
  assert (Hrun : fetch_connection w st0 =
                 (trace_of (fetch_connection w st0), st0, Returns connection)).
  { rewrite <- Hs. rewrite (fetch_connection_run w st0) at 1.
    now rewrite (fetch_connection_any w st0 initial_session),
      (fetch_connection_trace w st0 initial_session). }
  rewrite (bind_returns _ _ st0 _ _ connection Hrun).
  rewrite !after_after. now rewrite <- List.app_assoc.
Qed.

Lemma reconcile_finds w st st0 user connection active :
  finds w st active ->
  reconcile w user connection st0 =
  after [HttpGet "/machines/active"]
        (if negb (truthy active) then no_active_machine w connection st0
         else active_machine w user active st0).
Proof.
  unfold finds. intros H. rewrite (get_active_machine_any w st initial_session) in H.
  unfold reconcile.
  rewrite (bind_returns _ _ st0 _ _ active
             (eq_trans (get_active_machine_run w st0) (f_equal _ H))).
  now destruct (truthy active).
Qed.

Lemma handle_after w t (r : run unit) :
  handle w (after t r) =
  (t ++ trace_of (handle w r), session_of (handle w r), result_of (handle w r)).
Proof.
  destruct r as [[t' st'] [[]|e]]; unfold after, handle; simpl.
  - reflexivity.
  - destruct e; unfold trace_of, session_of, result_of; simpl;
      now rewrite <- List.app_assoc.
Qed.

(** ** No active machine (lines 103-112) *)

Lemma ensure_connected_clears w st : clears (trace_of (ensure_connected w st)) = 0%nat.
Proof.
  unfold ensure_connected. run_monad.
  destruct (connected_rpc st); simpl; [reflexivity|].
  destruct (connect_result w) as [[]|e]; simpl; [reflexivity|].
  destruct (is_Exception e); simpl; [|reflexivity].
  destruct (reconnect_sleep w); reflexivity.
Qed.

Lemma fetch_connection_clears w st : clears (trace_of (fetch_connection w st)) = 0%nat.
Proof. apply harmless_clears, reads_harmless, fetch_connection_reads. Qed.

(** What lines 103-112 do when nothing disturbs them. *)
Lemma no_active_machine_undisturbed w connection st :
  undisturbed w ->
  no_active_machine w connection st =
  ((if is_None (last_machine st) then []
    else [Print "No active machine found -> clearing RPC"; RpcClear])
   ++ (if truthy connection then [RpcUpdate connected_presence] else [])
   ++ [Sleep 5],
   (if is_None (last_machine st) then st
    else {| connected_rpc := connected_rpc st; last_machine := PNone |}),
   Returns tt).
Proof.
  intros (Hc & Hu & Hs). unfold no_active_machine. run_monad.
  rewrite Hc, Hu, Hs.
  destruct (is_None (last_machine st)), (truthy connection); reflexivity.
Qed.

(** An undisturbed iteration that finds no active machine. *)
Lemma absent_iteration w st user connection :
  polls w st user connection -> finds w st PNone -> undisturbed w ->
  let st0 := session_of (ensure_connected w st) in
  loop_iteration w st =
  ((trace_of (ensure_connected w st)
      ++ HttpGet "/user/info" :: trace_of (fetch_connection w st))
     ++ HttpGet "/machines/active"
     :: trace_of (no_active_machine w connection st0),
   (if is_None (last_machine st) then st0
    else {| connected_rpc := true; last_machine := PNone |}),
   Continue).
Proof.
  intros Hp Hf Hu st0. unfold loop_iteration.
  rewrite (try_body_polls w st user connection Hp).
  rewrite (reconcile_finds w st _ user connection PNone Hf). simpl negb. cbv iota.
  rewrite after_after, handle_after.
  destruct Hp as (Hc & _). destruct (ensure_connected_true w st Hc) as (Hc' & Hl).
  subst st0.
  rewrite (no_active_machine_undisturbed w connection _ Hu). rewrite Hl, Hc'.
  unfold handle, trace_of, session_of, result_of; simpl.
  now rewrite <- List.app_assoc.
Qed.

Lemma absent_iteration_clears w st user connection :
  polls w st user connection -> finds w st PNone -> undisturbed w ->
  clears (trace_of (loop_iteration w st)) =
  (if is_None (last_machine st) then 0 else 1)%nat /\
  last_machine (session_of (loop_iteration w st)) = PNone /\
  result_of (loop_iteration w st) = Continue.
Proof.
  intros Hp Hf Hu. rewrite (absent_iteration w st user connection Hp Hf Hu).
  destruct Hp as (Hc & _). destruct (ensure_connected_true w st Hc) as (Hc' & Hl).
  rewrite (no_active_machine_undisturbed w connection _ Hu), Hl. project.
  change (HttpGet ?p :: ?t) with ([HttpGet p] ++ t).
  rewrite !clears_app, ensure_connected_clears, fetch_connection_clears.
  destruct (is_None (last_machine st)) eqn:Hn.
  - repeat split.
    + now destruct (truthy connection).
    + rewrite Hl. now destruct (last_machine st).
  - repeat split. now destruct (truthy connection).
Qed.

Lemma each_absent_no_clear ws : forall st,
  last_machine st = PNone ->
  each_absent ws st ->
  clears (trace_of (main_loop ws st)) = 0%nat /\
  last_machine (session_of (main_loop ws st)) = PNone.
Proof.
  induction ws as [|w ws IH]; intros st Hl H; simpl.
  - auto.
  - destruct H as ((user & connection & Hp) & Hf & Hu & Hrest).
    destruct (absent_iteration_clears w st user connection Hp Hf Hu) as (Hc & Hl' & Hk).
    rewrite Hl in Hc. simpl in Hc.
    destruct (loop_iteration w st) as [[t st'] c] eqn:Hit.
    unfold trace_of, session_of, result_of in Hc, Hl', Hk, Hrest; simpl in *. subst c.
    specialize (IH st' Hl' Hrest).
    destruct (main_loop ws st') as [[t' st''] c']; unfold trace_of, session_of in *; simpl in *.
    rewrite clears_app. destruct IH as (-> & ->). now rewrite Hc.
Qed.

(** C1 (as amended): on an undisturbed iteration that finds no active
    machine while [last_machine] is set, [rpc.clear()] is called exactly
    once and [last_machine] becomes [None]; the undisturbed iterations
    without an active machine that follow it call no [rpc.clear()] at
    all and leave [last_machine] at [None]. *)
Theorem clear_once_on_leaving w ws st user connection :
  is_None (last_machine st) = false ->
  polls w st user connection -> finds w st PNone -> undisturbed w ->
  each_absent ws (session_of (loop_iteration w st)) ->
  clears (trace_of (loop_iteration w st)) = 1%nat /\
  last_machine (session_of (loop_iteration w st)) = PNone /\
  clears (trace_of (main_loop ws (session_of (loop_iteration w st)))) = 0%nat /\
  last_machine (session_of (main_loop ws (session_of (loop_iteration w st)))) = PNone.
Proof.
  intros Hn Hp Hf Hu Hrest.
  destruct (absent_iteration_clears w st user connection Hp Hf Hu) as (Hc & Hl & _).
  rewrite Hn in Hc.
  destruct (each_absent_no_clear ws _ Hl Hrest) as (Hc' & Hl').
  auto.
Qed.

Lemma clear_once_on_leaving_witness :
  clears (trace_of (loop_iteration idle (connected_on "Lame"))) = 1%nat /\
  last_machine (session_of (loop_iteration idle (connected_on "Lame"))) = PNone /\
  clears (trace_of (main_loop [idle; idle]
                      (session_of (loop_iteration idle (connected_on "Lame"))))) = 0%nat /\
  last_machine (session_of (main_loop [idle; idle]
                      (session_of (loop_iteration idle (connected_on "Lame"))))) = PNone.
Proof.
  apply (clear_once_on_leaving idle [idle; idle] (connected_on "Lame") player (PBool true)).
  - reflexivity.
  - repeat split.
  - reflexivity.
  - repeat split.
  - simpl. repeat split; try (exists player, (PBool true); repeat split).
Defined.


(** ** An active machine (lines 115-156) *)

Lemma py_eq_str n v : py_eq (PStr n) v = true -> v = PStr n.
Proof.
  destruct v; simpl; try discriminate.
  intros H. apply String.eqb_eq in H. now subst.
Qed.

Lemma py_eq_str_refl n : py_eq (PStr n) (PStr n) = true.
Proof. simpl. apply String.eqb_refl. Qed.

(** Up to the push, an iteration with an active machine only reads. *)
Lemma active_machine_run w st st0 user active machine_name machine_avatar display_name flags :
  presents w st user active machine_name machine_avatar display_name ->
  scans w st user machine_name flags ->
  active_machine w user active st0 =
  after (trace_of (fetch_activity_flags w user machine_name st))
        (push_presence w machine_name
           (render w machine_name machine_avatar flags display_name) st0).
Proof.
  intros (_ & _ & Hn & (avatar & Ha & Hr) & Hd) Hs. unfold scans in Hs.
  unfold active_machine.
  rewrite (bind_returns (lift (py_get active "name" PNone)) _ st0 [] st0 machine_name)
    by (unfold lift; now rewrite Hn).
  rewrite (bind_returns (lift (py_get active "avatar" PNone)) _ st0 [] st0 avatar)
    by (unfold lift; now rewrite Ha).
  rewrite (bind_returns (lift (resolve_avatar avatar)) _ st0 [] st0 machine_avatar)
    by (unfold lift; now rewrite Hr).
  pose proof (fetch_activity_flags_reads w user machine_name) as Hreads.
  rewrite (reads_result _ st initial_session Hreads) in Hs.
  rewrite (bind_returns _ _ st0 _ _ flags
             (eq_trans (reads_run _ st0 Hreads) (f_equal _ Hs))).
  rewrite (bind_returns
             (if truthy user then lift (py_get user "name" PNone) else ret (PStr ""))
             _ st0 [] st0 display_name)
    by (destruct (truthy user); unfold lift, ret; now rewrite ?Hd; inversion Hd).
  rewrite !after_nil. now rewrite (reads_trace _ st initial_session Hreads).
Qed.


Lemma push_presence_pushed w machine_name p st :
  pushed (trace_of (push_presence w machine_name p st)) = [p].
Proof.
  unfold push_presence. run_monad.
  destruct (py_eq machine_name (last_machine st)); simpl;
    destruct (update_result w) as [[]|e]; simpl; try reflexivity;
    destruct (poll_sleep w) as [[]|e']; reflexivity.
Qed.

Lemma push_presence_session w machine_name p st :
  session_of (push_presence w machine_name p st) =
  if py_eq machine_name (last_machine st) then st
  else match update_result w with
       | Returns _ => {| connected_rpc := connected_rpc st; last_machine := machine_name |}
       | Raises _ => st
       end.
Proof.
  unfold push_presence. run_monad.
  destruct (py_eq machine_name (last_machine st)); simpl;
    destruct (update_result w) as [[]|e]; simpl; try reflexivity;
    destruct (poll_sleep w) as [[]|e']; reflexivity.
Qed.

(** ** The handlers only clean up *)

Lemma on_exception_run w exc st :
  on_exception w exc st =
  ([PrintExn "Error (will retry):" exc; PrintTraceback; RpcClear; Sleep 5], st,
   retry_sleep w).
Proof.
  unfold on_exception. run_monad.
  destruct (cleanup_clear_result w); simpl; destruct (retry_sleep w) as [[]|e']; reflexivity.
Qed.

Lemma on_interrupt_run w st :
  on_interrupt w st = ([Print "Exiting."; RpcClear], st, Returns tt).
Proof.
  unfold on_interrupt. run_monad. destruct (cleanup_clear_result w); reflexivity.
Qed.

Lemma handle_session w (r : run unit) : session_of (handle w r) = session_of r.
Proof.
  destruct r as [[t st] [[]|e]]; [reflexivity|].
  destruct e; unfold handle; rewrite ?on_exception_run, ?on_interrupt_run; reflexivity.
Qed.

Lemma handle_pushed w (r : run unit) : pushed (trace_of (handle w r)) = pushed (trace_of r).
Proof.
  destruct r as [[t st] [[]|e]]; [reflexivity|].
  destruct e; unfold handle; rewrite ?on_exception_run, ?on_interrupt_run;
    unfold trace_of; simpl; rewrite pushed_app; simpl; apply List.app_nil_r.
Qed.

Lemma ensure_connected_pushed w st : pushed (trace_of (ensure_connected w st)) = [].
Proof.
  unfold ensure_connected. run_monad.
  destruct (connected_rpc st); simpl; [reflexivity|].
  destruct (connect_result w) as [[]|e]; simpl; [reflexivity|].
  destruct (is_Exception e); simpl; [|reflexivity].
  destruct (reconnect_sleep w); reflexivity.
Qed.

Lemma fetch_connection_pushed w st : pushed (trace_of (fetch_connection w st)) = [].
Proof. apply harmless_pushed, reads_harmless, fetch_connection_reads. Qed.

Lemma fetch_activity_flags_pushed w st user machine_name :
  pushed (trace_of (fetch_activity_flags w user machine_name st)) = [].
Proof. apply harmless_pushed, reads_harmless, fetch_activity_flags_reads. Qed.

(** An iteration with an active machine pushes the rendered presence,
    once, and records the name when the push of a new name returns. *)
Lemma present_iteration w st user connection active machine_name machine_avatar
      display_name flags :
  polls w st user connection ->
  presents w st user active machine_name machine_avatar display_name ->
  scans w st user machine_name flags ->
  pushed (trace_of (loop_iteration w st)) =
    [render w machine_name machine_avatar flags display_name] /\
  last_machine (session_of (loop_iteration w st)) =
    (if py_eq machine_name (last_machine st) then last_machine st
     else match update_result w with
          | Returns _ => machine_name
          | Raises _ => last_machine st
          end).
Proof.
  intros Hp Hpr Hs. unfold loop_iteration.
  rewrite (try_body_polls w st user connection Hp).
  assert (Hf : finds w st active) by apply Hpr.
  assert (Ht : truthy active = true) by apply Hpr.
  rewrite (reconcile_finds w st _ user connection active Hf), Ht. simpl negb. cbv iota.
  rewrite (active_machine_run w st _ user active _ _ _ flags Hpr Hs).
  rewrite !after_after. split.
  - rewrite handle_pushed. unfold after, trace_of at 1. simpl fst.
    rewrite !pushed_app. change (HttpGet ?p :: ?t) with ([HttpGet p] ++ t).
    rewrite !pushed_app, ensure_connected_pushed, fetch_connection_pushed,
      fetch_activity_flags_pushed, push_presence_pushed.
    reflexivity.
  - rewrite handle_session. unfold after, session_of at 1. simpl fst; simpl snd.
    rewrite push_presence_session.
    destruct Hp as (Hc & _). destruct (ensure_connected_true w st Hc) as (_ & Hl).
    rewrite Hl.
    destruct (py_eq machine_name (last_machine st)); [exact Hl|].
    destruct (update_result w); [reflexivity|exact Hl].
Qed.


(** C2 (as amended): when two iterations that run one after the other
    both find an active machine, each pushes its rendered presence, with
    the machine's name as details, whether or not the name changed.  If
    the first push returns, [last_machine] is that name afterwards and a
    second iteration with the same name leaves it unchanged; a second
    iteration whose push returns leaves [last_machine] at its own name. *)
Theorem push_on_every_iteration
        w1 w2 st u1 c1 a1 n1 av1 d1 f1 u2 c2 a2 n2 av2 d2 f2 :
  polls w1 st u1 c1 ->
  presents w1 st u1 a1 (PStr n1) av1 d1 ->
  scans w1 st u1 (PStr n1) f1 ->
  polls w2 (session_of (loop_iteration w1 st)) u2 c2 ->
  presents w2 (session_of (loop_iteration w1 st)) u2 a2 (PStr n2) av2 d2 ->
  scans w2 (session_of (loop_iteration w1 st)) u2 (PStr n2) f2 ->
  pushed (trace_of (loop_iteration w1 st)) = [render w1 (PStr n1) av1 f1 d1] /\
  details (render w1 (PStr n1) av1 f1 d1) = Some n1 /\
  pushed (trace_of (loop_iteration w2 (session_of (loop_iteration w1 st)))) =
    [render w2 (PStr n2) av2 f2 d2] /\
  details (render w2 (PStr n2) av2 f2 d2) = Some n2 /\
  (update_result w1 = Returns tt ->
   last_machine (session_of (loop_iteration w1 st)) = PStr n1 /\
   (n2 = n1 ->
    last_machine (session_of (loop_iteration w2 (session_of (loop_iteration w1 st)))) =
    last_machine (session_of (loop_iteration w1 st)))) /\
  (update_result w2 = Returns tt ->
   last_machine (session_of (loop_iteration w2 (session_of (loop_iteration w1 st)))) =
   PStr n2).
Proof.
  intros Hp1 Hpr1 Hs1 Hp2 Hpr2 Hs2.
  destruct (present_iteration _ _ _ _ _ _ _ _ _ Hp1 Hpr1 Hs1) as (Hpush1 & Hlast1).
  destruct (present_iteration _ _ _ _ _ _ _ _ _ Hp2 Hpr2 Hs2) as (Hpush2 & Hlast2).
  repeat apply conj; try assumption; try reflexivity.
  - intros Hu1.
    assert (H1 : last_machine (session_of (loop_iteration w1 st)) = PStr n1).
    { rewrite Hlast1, Hu1.
      destruct (py_eq (PStr n1) (last_machine st)) eqn:E; [|reflexivity].
      now apply py_eq_str. }
    split; [exact H1|].
    intros ->. rewrite Hlast2, H1, py_eq_str_refl. reflexivity.
  - intros Hu2. rewrite Hlast2, Hu2.
    destruct (py_eq (PStr n2) _) eqn:E; [|reflexivity].
    now apply py_eq_str.
Qed.

Lemma push_on_every_iteration_witness :
  pushed (trace_of (loop_iteration on_lame connected_idle)) =
    [render on_lame (PStr "Lame") "https://app.hackthebox.com/img/lame.png"
            {| flag_user := true; flag_root := false |} (PStr "player")] /\
  pushed (trace_of (loop_iteration on_lame
                      (session_of (loop_iteration on_lame connected_idle)))) =
    [render on_lame (PStr "Lame") "https://app.hackthebox.com/img/lame.png"
            {| flag_user := true; flag_root := false |} (PStr "player")] /\
  last_machine (session_of (loop_iteration on_lame connected_idle)) = PStr "Lame" /\
  last_machine (session_of (loop_iteration on_lame
                              (session_of (loop_iteration on_lame connected_idle)))) =
  last_machine (session_of (loop_iteration on_lame connected_idle)).
Proof.
  destruct (push_on_every_iteration on_lame on_lame connected_idle
              player (PBool true)
              (PDict [("name", PStr "Lame"); ("avatar", PStr "/img/lame.png")])
              "Lame" "https://app.hackthebox.com/img/lame.png" (PStr "player")
              {| flag_user := true; flag_root := false |}
              player (PBool true)
              (PDict [("name", PStr "Lame"); ("avatar", PStr "/img/lame.png")])
              "Lame" "https://app.hackthebox.com/img/lame.png" (PStr "player")
              {| flag_user := true; flag_root := false |})
    as (H1 & _ & H2 & _ & H3 & _).
  - repeat apply conj; reflexivity.
  - repeat apply conj; try reflexivity.
    exists (PStr "/img/lame.png"). split; reflexivity.
  - reflexivity.
  - repeat apply conj; reflexivity.
  - repeat apply conj; try reflexivity.
    exists (PStr "/img/lame.png"). split; reflexivity.
  - reflexivity.
  - exact (conj H1 (conj H2 (conj (proj1 (H3 eq_refl)) (proj2 (H3 eq_refl) eq_refl)))).
Defined.

(** C2 fails as stated when a push raises.  First the machine Lame is
    found in two iterations in a row and the first push fails:
    [last_machine] is [None] after the first and ["Lame"] after the
    second.  Then Legacy is found while [last_machine] is ["Lame"] and
    the push fails: the push is made with the new details, and
    [last_machine] stays ["Lame"]. *)
Lemma push_failure_counterexample :
  (finds on_lame_update_fails connected_idle
     (PDict [("name", PStr "Lame"); ("avatar", PStr "/img/lame.png")]) /\
   loop_iteration on_lame_update_fails connected_idle =
     ([HttpGet "/user/info"; HttpGet "/user/connection/status";
       HttpGet "/machines/active"; HttpGet "/profile/activity/7";
       PrintVal "Updating presence for:" (PStr "Lame");
       RpcUpdate (render on_lame (PStr "Lame") "https://app.hackthebox.com/img/lame.png"
                    {| flag_user := true; flag_root := false |} (PStr "player"));
       PrintExn "Error (will retry):" (LibraryError "PipeClosed");
       PrintTraceback; RpcClear; Sleep 5],
      connected_idle, Continue) /\
   finds on_lame connected_idle
     (PDict [("name", PStr "Lame"); ("avatar", PStr "/img/lame.png")]) /\
   last_machine (session_of (loop_iteration on_lame connected_idle)) = PStr "Lame") /\
  (finds on_legacy_update_fails (connected_on "Lame")
     (PDict [("name", PStr "Legacy"); ("avatar", PStr "")]) /\
   pushes "Legacy" "User: 🔴 | Root: 🔴"
     (trace_of (loop_iteration on_legacy_update_fails (connected_on "Lame"))) = true /\
   last_machine (session_of (loop_iteration on_legacy_update_fails (connected_on "Lame")))
   = PStr "Lame").
Proof. repeat split. Qed.


(** What lines 103-112 push: the waiting presence when [connection] is
    truthy, unless the [rpc.clear()] of line 106 is called and raises. *)
Lemma no_active_machine_pushed w connection st :
  truthy connection = true ->
  is_None (last_machine st) = true \/ clear_result w = Returns tt ->
  pushed (trace_of (no_active_machine w connection st)) = [connected_presence].
Proof.
  intros Hc H. unfold no_active_machine. run_monad. rewrite Hc.
  destruct (is_None (last_machine st)) eqn:Hn; simpl.
  - destruct (update_result w) as [[]|e]; simpl; [|reflexivity].
    destruct (poll_sleep w) as [[]|e]; reflexivity.
  - destruct H as [H|H]; [discriminate|]. rewrite H. simpl.
    destruct (update_result w) as [[]|e]; simpl; [|reflexivity].
    destruct (poll_sleep w) as [[]|e]; reflexivity.
Qed.

(** C3 (as amended): on every iteration that finds no active machine
    while the connection status is truthy, the loop pushes the presence
    with details "Connected to HTB", state "Waiting for active machine"
    and large text "Hack The Box", provided the [rpc.clear()] of line
    106, if it is called, returns.  The push does not depend on
    [last_machine]: it is made on every such iteration. *)
Theorem waiting_presence_every_time w st user connection :
  polls w st user connection ->
  finds w st PNone ->
  truthy connection = true ->
  is_None (last_machine st) = true \/ clear_result w = Returns tt ->
  pushed (trace_of (loop_iteration w st)) =
    [{| details := Some "Connected to HTB";
        state := Some "Waiting for active machine";
        large_image := None;
        large_text := Some "Hack The Box";
        small_image := None;
        small_text := None |}].
Proof.
  intros Hp Hf Hc Hclear. unfold loop_iteration.
  rewrite (try_body_polls w st user connection Hp).
  rewrite (reconcile_finds w st _ user connection PNone Hf). simpl negb. cbv iota.
  rewrite after_after, handle_pushed. unfold after. project.
  change (HttpGet ?p :: ?t) with ([HttpGet p] ++ t).
  rewrite !pushed_app, ensure_connected_pushed, fetch_connection_pushed.
  destruct Hp as (Hconn & _). destruct (ensure_connected_true w st Hconn) as (_ & Hl).
  rewrite (no_active_machine_pushed w connection _ Hc); [reflexivity|].
  now rewrite Hl.
Qed.

Lemma waiting_presence_every_time_witness :
  pushed (trace_of (loop_iteration idle connected_idle)) =
    [{| details := Some "Connected to HTB";
        state := Some "Waiting for active machine";
        large_image := None;
        large_text := Some "Hack The Box";
        small_image := None;
        small_text := None |}].
Proof.
  apply (waiting_presence_every_time idle connected_idle player (PBool true)).
  - repeat split.
  - reflexivity.
  - reflexivity.
  - left. reflexivity.
Defined.

(** C3 fails as stated.  With no active machine and the connection
    status [True], the presence pushed is not the one with details
    "Connected" and state "Waiting for active session"; and nothing at
    all is pushed when the [rpc.clear()] of line 106 raises. *)
Lemma waiting_presence_counterexample :
  (finds idle connected_idle PNone /\
   result_of (fetch_connection idle connected_idle) = Returns (PBool true) /\
   pushes "Connected" "Waiting for active session"
     (trace_of (loop_iteration idle connected_idle)) = false /\
   pushes "Connected to HTB" "Waiting for active machine"
     (trace_of (loop_iteration idle connected_idle)) = true) /\
  (finds idle_clear_fails (connected_on "Lame") PNone /\
   result_of (fetch_connection idle_clear_fails (connected_on "Lame")) = Returns (PBool true) /\
   loop_iteration idle_clear_fails (connected_on "Lame") =
     ([HttpGet "/user/info"; HttpGet "/user/connection/status"; HttpGet "/machines/active";
       Print "No active machine found -> clearing RPC"; RpcClear;
       PrintExn "Error (will retry):" (LibraryError "PipeClosed");
       PrintTraceback; RpcClear; Sleep 5],
      connected_on "Lame", Continue)).
Proof. repeat split. Qed.

(** C1 fails as stated when the presence client fails.  When the
    [rpc.clear()] of line 106 raises, the handler clears again and
    [last_machine] keeps its value, so that the next iteration without
    an active machine clears once more.  When the [rpc.update] of line
    110 raises, the handler clears on an iteration that follows the
    transition.  When the sleep of line 111 is interrupted, the
    iteration of the transition clears twice. *)
Lemma clear_repeats_counterexample :
  (finds idle_clear_fails (connected_on "Lame") PNone /\
   clears (trace_of (loop_iteration idle_clear_fails (connected_on "Lame"))) = 2%nat /\
   loop_iteration idle_clear_fails (connected_on "Lame") =
     ([HttpGet "/user/info"; HttpGet "/user/connection/status"; HttpGet "/machines/active";
       Print "No active machine found -> clearing RPC"; RpcClear;
       PrintExn "Error (will retry):" (LibraryError "PipeClosed");
       PrintTraceback; RpcClear; Sleep 5],
      connected_on "Lame", Continue) /\
   finds idle (connected_on "Lame") PNone /\
   clears (trace_of (loop_iteration idle (connected_on "Lame"))) = 1%nat) /\
  (finds idle_update_fails (connected_on "Lame") PNone /\
   loop_iteration idle_update_fails (connected_on "Lame") =
     ([HttpGet "/user/info"; HttpGet "/user/connection/status"; HttpGet "/machines/active";
       Print "No active machine found -> clearing RPC"; RpcClear;
       RpcUpdate connected_presence;
       PrintExn "Error (will retry):" (LibraryError "PipeClosed");
       PrintTraceback; RpcClear; Sleep 5],
      connected_idle, Continue) /\
   finds idle_update_fails connected_idle PNone /\
   clears (trace_of (loop_iteration idle_update_fails connected_idle)) = 1%nat) /\
  (finds interrupted_idle (connected_on "Lame") PNone /\
   loop_iteration interrupted_idle (connected_on "Lame") =
     ([HttpGet "/user/info"; HttpGet "/user/connection/status"; HttpGet "/machines/active";
       Print "No active machine found -> clearing RPC"; RpcClear;
       RpcUpdate connected_presence; Sleep 5;
       Print "Exiting."; RpcClear],
      connected_idle, Break)).
Proof. repeat split. Qed.


(** ** Failures *)

Lemma ensure_connected_run_true w st :
  result_of (ensure_connected w st) = Returns true ->
  ensure_connected w st =
  (trace_of (ensure_connected w st), session_of (ensure_connected w st), Returns true).
Proof. intros H. rewrite <- H. apply run_eta. Qed.

(** C4: when the user-info fetch fails, the iteration logs the failure,
    the handler of line 164 logs it again, prints the traceback, calls
    [rpc.clear()] (whatever that call does), sleeps 5 and the loop goes
    on to its next iteration with the session as it was; only an
    exception out of that very sleep can stop it. *)
Theorem user_info_failure_retries w st e :
  result_of (ensure_connected w st) = Returns true ->
  result_of (get_user_info w st) = Raises e ->
  is_Exception e = true ->
  loop_iteration w st =
    (trace_of (ensure_connected w st)
       ++ [HttpGet "/user/info"; PrintExn "Failed to fetch user info:" e;
           PrintExn "Error (will retry):" e; PrintTraceback; RpcClear; Sleep 5],
     session_of (ensure_connected w st),
     match retry_sleep w with
     | Returns _ => Continue
     | Raises e' => Uncaught e'
     end) /\
  (retry_sleep w = Returns tt ->
   forall ws,
     main_loop (w :: ws) st =
     ((trace_of (ensure_connected w st)
         ++ [HttpGet "/user/info"; PrintExn "Failed to fetch user info:" e;
             PrintExn "Error (will retry):" e; PrintTraceback; RpcClear; Sleep 5])
        ++ trace_of (main_loop ws (session_of (ensure_connected w st))),
      session_of (main_loop ws (session_of (ensure_connected w st))),
      result_of (main_loop ws (session_of (ensure_connected w st))))).
Proof.
  intros Hc Hu He.
  assert (Hit : loop_iteration w st =
    (trace_of (ensure_connected w st)
       ++ [HttpGet "/user/info"; PrintExn "Failed to fetch user info:" e;
           PrintExn "Error (will retry):" e; PrintTraceback; RpcClear; Sleep 5],
     session_of (ensure_connected w st),
     match retry_sleep w with
     | Returns _ => Continue
     | Raises e' => Uncaught e'
     end)).
  { unfold loop_iteration, try_body.
    rewrite (bind_returns _ _ st _ _ true (ensure_connected_run_true w st Hc)).
    set (st0 := session_of (ensure_connected w st)).
    rewrite (reads_result _ st st0 (get_user_info_reads w)) in Hu.
    rewrite (bind_raises _ _ st0 _ _ e (fetch_user_raises w st0 e Hu He)).
    unfold after. project. unfold handle.
    destruct e; try discriminate; rewrite on_exception_run; project;
      now rewrite <- List.app_assoc. }
  split; [exact Hit|].
  intros Hs ws. simpl. rewrite Hit, Hs.
  now destruct (main_loop ws (session_of (ensure_connected w st))) as [[t' st''] c].
Qed.

Lemma user_info_failure_retries_witness :
  loop_iteration user_info_down (connected_on "Lame") =
    ([HttpGet "/user/info";
      PrintExn "Failed to fetch user info:" (RuntimeError "user/info 401: Server Error");
      PrintExn "Error (will retry):" (RuntimeError "user/info 401: Server Error");
      PrintTraceback; RpcClear; Sleep 5],
     connected_on "Lame", Continue) /\
  main_loop [user_info_down; idle] (connected_on "Lame") =
    ([HttpGet "/user/info";
      PrintExn "Failed to fetch user info:" (RuntimeError "user/info 401: Server Error");
      PrintExn "Error (will retry):" (RuntimeError "user/info 401: Server Error");
      PrintTraceback; RpcClear; Sleep 5]
       ++ trace_of (main_loop [idle] (connected_on "Lame")),
     session_of (main_loop [idle] (connected_on "Lame")),
     result_of (main_loop [idle] (connected_on "Lame"))).
Proof.
  split.
  - exact (proj1 (user_info_failure_retries user_info_down (connected_on "Lame")
                    (RuntimeError "user/info 401: Server Error")
                    eq_refl eq_refl eq_refl)).
  - exact (proj2 (user_info_failure_retries user_info_down (connected_on "Lame")
                    (RuntimeError "user/info 401: Server Error")
                    eq_refl eq_refl eq_refl) eq_refl [idle]).
Defined.

(** C5: the active-machine fetch answers "no machine" ([None]) both to
    a 404 and to a 200 whose [info] is null, and the loop then takes the
    same branch (lines 103-112) in both cases; any status other than 200
    and 404 raises. *)
Theorem no_machine_on_404_or_null w st r :
  active_reply w = Returns r ->
  (status_code r = 404 \/
   (status_code r = 200 /\
    exists j, json r = Some j /\ py_get j "info" PNone = Returns PNone) ->
   get_active_machine w st = ([HttpGet "/machines/active"], st, Returns PNone) /\
   forall user connection,
     reconcile w user connection st =
     after [HttpGet "/machines/active"] (no_active_machine w connection st)) /\
  (status_code r <> 404 -> status_code r <> 200 ->
   get_active_machine w st =
   ([HttpGet "/machines/active"], st, Raises (status_error "machines/active" r))).
Proof.
  intros Hr. split.
  - intros H.
    assert (Hg : get_active_machine w st = ([HttpGet "/machines/active"], st, Returns PNone)).
    { unfold get_active_machine, api_get. run_monad. rewrite Hr. simpl.
      destruct H as [H|(H & j & Hj & Hi)]; rewrite H; simpl; [reflexivity|].
      unfold json_of. rewrite Hj. simpl. rewrite Hi. reflexivity. }
    split; [exact Hg|].
    intros user connection.
    apply (reconcile_finds w st st user connection PNone).
    unfold finds. now rewrite Hg.
  - intros H4 H2. unfold get_active_machine, api_get. run_monad. rewrite Hr. simpl.
    apply Z.eqb_neq in H4, H2. rewrite H4, H2. reflexivity.
Qed.

Lemma no_machine_on_404_or_null_witness :
  get_active_machine not_found connected_idle =
    ([HttpGet "/machines/active"], connected_idle, Returns PNone) /\
  get_active_machine idle connected_idle =
    ([HttpGet "/machines/active"], connected_idle, Returns PNone) /\
  get_active_machine bad_gateway connected_idle =
    ([HttpGet "/machines/active"], connected_idle,
     Raises (RuntimeError "machines/active 502: Server Error")).
Proof.
  repeat apply conj.
  - apply (proj1 (no_machine_on_404_or_null not_found connected_idle _ eq_refl)).
    left. reflexivity.
  - apply (proj1 (no_machine_on_404_or_null idle connected_idle _ eq_refl)).
    right. split; [reflexivity|]. exists nothing_active. split; reflexivity.
  - apply (proj2 (no_machine_on_404_or_null bad_gateway connected_idle _ eq_refl));
      discriminate.
Defined.

(** C6: when the connection-status fetch fails, lines 95-100 log the
    failure and go on with [False], and the iteration runs the rest of
    its steps (lines 102-156) with that value. *)
Theorem connection_failure_degrades w st user e :
  result_of (ensure_connected w st) = Returns true ->
  result_of (get_user_info w st) = Returns user ->
  result_of (get_connection_status w st) = Raises e ->
  is_Exception e = true ->
  fetch_connection w st =
    ([HttpGet "/user/connection/status";
      PrintExn "Failed to fetch connection status:" e], st, Returns (PBool false)) /\
  try_body w st =
    after (trace_of (ensure_connected w st)
             ++ [HttpGet "/user/info"; HttpGet "/user/connection/status";
                 PrintExn "Failed to fetch connection status:" e])
          (reconcile w user (PBool false) (session_of (ensure_connected w st))).
Proof.
  intros Hc Hu Hs He.
  assert (Hf : forall st', fetch_connection w st' =
    ([HttpGet "/user/connection/status";
      PrintExn "Failed to fetch connection status:" e], st', Returns (PBool false))).
  { intros st'. unfold fetch_connection, try_except.
    rewrite (get_connection_status_any w st initial_session) in Hs.
    rewrite get_connection_status_run, Hs, He. reflexivity. }
  split; [apply Hf|].
  rewrite (try_body_polls w st user (PBool false)).
  - now rewrite Hf.
  - repeat split; try assumption. now rewrite Hf.
Qed.

Lemma connection_failure_degrades_witness :
  fetch_connection status_down connected_idle =
    ([HttpGet "/user/connection/status";
      PrintExn "Failed to fetch connection status:"
               (RuntimeError "connection/status 500: Server Error")],
     connected_idle, Returns (PBool false)) /\
  try_body status_down connected_idle =
    after (trace_of (ensure_connected status_down connected_idle)
             ++ [HttpGet "/user/info"; HttpGet "/user/connection/status";
                 PrintExn "Failed to fetch connection status:"
                          (RuntimeError "connection/status 500: Server Error")])
          (reconcile status_down player (PBool false)
             (session_of (ensure_connected status_down connected_idle))).
Proof.
  exact (connection_failure_degrades status_down connected_idle player
           (RuntimeError "connection/status 500: Server Error")
           eq_refl eq_refl eq_refl eq_refl).
Defined.


(** A record that raises in the middle of a fetched log stops the scan
    and keeps what the records before it have set. *)
Example scan_keeps_earlier_flags :
  scan_activity (PStr "Lame") [own "Lame" "user"; PInt 5] no_flags =
  ({| flag_user := true; flag_root := false |}, Some AttributeError).
Proof. reflexivity. Qed.




(** The scan of a log that holds the one record [{name: "Lame", type:
    "user"}], for the machine Lame. *)
Lemma scans_lame_user w st user display_name r :
  py_get user "name" PNone = Returns display_name ->
  activity_reply w = Returns r ->
  status_code r = 200 ->
  json r = Some (activity [own "Lame" "user"]) ->
  scans w st user (PStr "Lame") {| flag_user := true; flag_root := false |}.
Proof.
  intros Hn Hr Hs Hj. destruct user; try discriminate.
  unfold scans, fetch_activity_flags, api_get. run_monad.
  rewrite Hr. simpl. rewrite Hs. simpl. unfold json_of. rewrite Hj. reflexivity.
Qed.

Lemma has_name_truthy active name :
  py_get active "name" PNone = Returns (PStr name) -> truthy active = true.
Proof.
  destruct active as [| | | |l|d]; try discriminate.
  destruct d; [discriminate|reflexivity].
Qed.

(** C8: with the machine Lame active and a log that holds only the
    record of its user flag, the presence pushed has the machine's name
    as details, the user flag shown as owned and the root flag as not,
    and the user's display name as small text; its large image is the
    avatar path on the platform's origin, and "htb_logo" when the
    machine has no avatar. *)
Theorem lame_presence w st user connection active avatar display_name r :
  polls w st user connection ->
  finds w st active ->
  py_get active "name" PNone = Returns (PStr "Lame") ->
  py_get active "avatar" PNone = Returns avatar ->
  truthy user = true ->
  py_get user "name" PNone = Returns display_name ->
  activity_reply w = Returns r ->
  status_code r = 200 ->
  json r = Some (activity [own "Lame" "user"]) ->
  (avatar = PStr "/img/lame.png" ->
   pushed (trace_of (loop_iteration w st)) =
     [{| details := Some "Lame";
         state := Some "User: 🟢 | Root: 🔴";
         large_image := Some "https://app.hackthebox.com/img/lame.png";
         large_text := None;
         small_image := Some "";
         small_text := Some display_name |}]) /\
  (avatar = PNone ->
   pushed (trace_of (loop_iteration w st)) =
     [{| details := Some "Lame";
         state := Some "User: 🟢 | Root: 🔴";
         large_image := Some "htb_logo";
         large_text := None;
         small_image := Some "";
         small_text := Some display_name |}]).
Proof.
  intros Hp Hf Hname Havatar Hu Hd Hr Hs Hj.
  pose proof (scans_lame_user w st user display_name r Hd Hr Hs Hj) as Hscan.
  pose proof (has_name_truthy active "Lame" Hname) as Ht.
  split; intros ->.
  - refine (proj1 (present_iteration w st user connection active (PStr "Lame")
                     "https://app.hackthebox.com/img/lame.png" display_name _ Hp _ Hscan)).
    repeat apply conj; try assumption.
    + exists (PStr "/img/lame.png"). split; [assumption|reflexivity].
    + now rewrite Hu.
  - refine (proj1 (present_iteration w st user connection active (PStr "Lame")
                     "" display_name _ Hp _ Hscan)).
    repeat apply conj; try assumption.
    + exists PNone. split; [assumption|reflexivity].
    + now rewrite Hu.
Qed.

Lemma lame_presence_witness :
  pushed (trace_of (loop_iteration on_lame connected_idle)) =
    [{| details := Some "Lame";
        state := Some "User: 🟢 | Root: 🔴";
        large_image := Some "https://app.hackthebox.com/img/lame.png";
        large_text := None;
        small_image := Some "";
        small_text := Some (PStr "player") |}] /\
  pushed (trace_of (loop_iteration on_lame_bare connected_idle)) =
    [{| details := Some "Lame";
        state := Some "User: 🟢 | Root: 🔴";
        large_image := Some "htb_logo";
        large_text := None;
        small_image := Some "";
        small_text := Some (PStr "player") |}].
Proof.
  split.
  - refine (proj1 (lame_presence on_lame connected_idle player (PBool true)
                     (PDict [("name", PStr "Lame"); ("avatar", PStr "/img/lame.png")])
                     (PStr "/img/lame.png") (PStr "player")
                     {| status_code := 200; text := "";
                        json := Some (activity [own "Lame" "user"]) |}
                     _ eq_refl eq_refl eq_refl eq_refl eq_refl eq_refl eq_refl eq_refl)
                  eq_refl).
    repeat apply conj; reflexivity.
  - refine (proj2 (lame_presence on_lame_bare connected_idle player (PBool true)
                     (PDict [("name", PStr "Lame")])
                     PNone (PStr "player")
                     {| status_code := 200; text := "";
                        json := Some (activity [own "Lame" "user"]) |}
                     _ eq_refl eq_refl eq_refl eq_refl eq_refl eq_refl eq_refl eq_refl)
                  eq_refl).
    repeat apply conj; reflexivity.
Defined.


(** ** The connected flag *)
Lemma keeps_ret {A} (a : A) : keeps_connection (ret a).
Proof. intros st H. now split. Qed.

Lemma keeps_raise {A} e : keeps_connection (@raise A e).
Proof. intros st H. now split. Qed.

Lemma keeps_get_session : keeps_connection get_session.
Proof. intros st H. now split. Qed.

Lemma keeps_set_last_machine v : keeps_connection (set_last_machine v).
Proof. intros st H. now split. Qed.

Lemma keeps_reads {A} (m : M A) : reads m -> keeps_connection m.
Proof.
  intros (t & r & Ht & Hm) st H. rewrite Hm. project.
  split; [assumption|now apply harmless_connects].
Qed.

Lemma keeps_bind {A B} (m : M A) (f : A -> M B) :
  keeps_connection m -> (forall a, keeps_connection (f a)) ->
  keeps_connection (x <- m ;; f x).
Proof.
  intros Hm Hf st H. unfold bind.
  destruct (Hm st H) as (Hc & Ht).
  destruct (m st) as [[t st'] [a|e]]; unfold session_of, trace_of in Hc, Ht; simpl in Hc, Ht.
  - destruct (Hf a st' Hc) as (Hc' & Ht'). unfold after. project.
    split; [assumption|]. now rewrite connects_app, Ht, Ht'.
  - now split.
Qed.

Lemma keeps_call {A} ev (o : outcome A) :
  is_connect ev = false -> keeps_connection (call ev o).
Proof.
  intros Hev st H. unfold call, bind, emit, lift, after. project.
  split; [assumption|]. unfold connects. simpl. now rewrite Hev.
Qed.

Lemma keeps_try_pass (m : M unit) : keeps_connection m -> keeps_connection (try_pass m).
Proof.
  intros Hm st H. unfold try_pass. destruct (Hm st H) as (Hc & Ht).
  now destruct (m st) as [[t st'] r].
Qed.

Create HintDb keeps.
#[local] Hint Resolve keeps_ret keeps_raise keeps_get_session keeps_set_last_machine
  keeps_try_pass : keeps.
#[local] Hint Extern 1 (keeps_connection (call _ _)) =>
  apply keeps_call; reflexivity : keeps.
#[local] Hint Extern 1 (keeps_connection (sleep _ _)) =>
  apply keeps_call; reflexivity : keeps.
#[local] Hint Extern 1 (keeps_connection (emit _)) =>
  apply keeps_reads, reads_emit; reflexivity : keeps.
#[local] Hint Extern 1 (keeps_connection (lift _)) =>
  apply keeps_reads, reads_lift : keeps.

Ltac keeps_steps :=
  repeat first
    [ apply keeps_bind; [|intros ?]
    | match goal with
      | |- keeps_connection (if ?b then _ else _) => destruct b
      end
    | solve [auto with keeps] ].

Lemma keeps_ensure_connected w : keeps_connection (ensure_connected w).
Proof. intros st H. rewrite (ensure_connected_already w st H). now split. Qed.

Lemma keeps_no_active_machine w connection : keeps_connection (no_active_machine w connection).
Proof. unfold no_active_machine. keeps_steps. Qed.

Lemma keeps_push_presence w machine_name p : keeps_connection (push_presence w machine_name p).
Proof. unfold push_presence. keeps_steps. Qed.

Lemma keeps_active_machine w user active : keeps_connection (active_machine w user active).
Proof.
  unfold active_machine.
  apply keeps_bind; [auto with keeps|intros machine_name].
  apply keeps_bind; [auto with keeps|intros avatar].
  apply keeps_bind; [auto with keeps|intros machine_avatar].
  apply keeps_bind; [apply keeps_reads, fetch_activity_flags_reads|intros flags].
  apply keeps_bind; [destruct (truthy user); auto with keeps|intros small_text].
  apply keeps_push_presence.
Qed.

Lemma keeps_try_body w : keeps_connection (try_body w).
Proof.
  unfold try_body.
  apply keeps_bind; [apply keeps_ensure_connected|intros [|]; [|auto with keeps]].
  apply keeps_bind;
    [apply keeps_reads; unfold fetch_user, get_user_info, api_get; reads_steps|intros user].
  apply keeps_bind; [apply keeps_reads, fetch_connection_reads|intros connection].
  unfold reconcile.
  apply keeps_bind; [apply keeps_reads, get_active_machine_reads|intros active].
  destruct (negb (truthy active));
    [apply keeps_no_active_machine|apply keeps_active_machine].
Qed.

Lemma handle_connects w (r : run unit) : connects (trace_of (handle w r)) = connects (trace_of r).
Proof.
  destruct r as [[t st] [[]|e]]; [reflexivity|].
  destruct e; unfold handle; rewrite ?on_exception_run, ?on_interrupt_run; project;
    rewrite connects_app; apply Nat.add_0_r.
Qed.

Lemma loop_iteration_keeps w st :
  connected_rpc st = true ->
  connected_rpc (session_of (loop_iteration w st)) = true /\
  connects (trace_of (loop_iteration w st)) = 0%nat.
Proof.
  intros H. unfold loop_iteration. rewrite handle_session, handle_connects.
  now apply keeps_try_body.
Qed.

(** C9: once [connected_rpc] is set, it is set after any number of
    iterations, whatever the world does (failing updates and clears,
    failing fetches, the handlers), and none of these iterations calls
    [rpc.connect()] again. *)
Theorem connected_flag_is_monotone ws st :
  connected_rpc st = true ->
  connected_rpc (session_of (main_loop ws st)) = true /\
  connects (trace_of (main_loop ws st)) = 0%nat.
Proof.
  revert st. induction ws as [|w ws IH]; intros st H; simpl.
  - now split.
  - destruct (loop_iteration_keeps w st H) as (Hc & Ht).
    destruct (loop_iteration w st) as [[t st'] c].
    unfold session_of, trace_of in Hc, Ht; simpl in Hc, Ht.
    destruct c; try (now split).
    destruct (IH st' Hc) as (Hc' & Ht').
    destruct (main_loop ws st') as [[t' st''] c'].
    unfold session_of, trace_of in *; simpl in *.
    split; [assumption|]. now rewrite connects_app, Ht, Ht'.
Qed.

Lemma connected_flag_is_monotone_witness :
  connected_rpc (session_of (main_loop
     [on_lame_update_fails; idle_clear_fails; user_info_down; idle_update_fails]
     (session_of (loop_iteration on_lame initial_session)))) = true /\
  connects (trace_of (main_loop
     [on_lame_update_fails; idle_clear_fails; user_info_down; idle_update_fails]
     (session_of (loop_iteration on_lame initial_session)))) = 0%nat.
Proof.
  apply (connected_flag_is_monotone
           [on_lame_update_fails; idle_clear_fails; user_info_down; idle_update_fails]
           (session_of (loop_iteration on_lame initial_session))).
  reflexivity.
Defined.

(** C10: the handler of lines 164-171 logs the exception, prints the
    traceback, calls [rpc.clear()] and sleeps 5, whatever the clear
    does, and leaves the session as it found it; so an iteration whose
    [try] block raises ends with [connected_rpc] and [last_machine] as
    they were when the exception was raised. *)
Theorem handler_leaves_session w st t st' exc :
  try_body w st = (t, st', Raises exc) ->
  is_Exception exc = true ->
  trace_of (on_exception w exc st') =
    [PrintExn "Error (will retry):" exc; PrintTraceback; RpcClear; Sleep 5] /\
  session_of (on_exception w exc st') = st' /\
  trace_of (loop_iteration w st) =
    t ++ [PrintExn "Error (will retry):" exc; PrintTraceback; RpcClear; Sleep 5] /\
  session_of (loop_iteration w st) = st'.
Proof.
  intros Hb He. unfold loop_iteration. rewrite Hb, on_exception_run. project.
  repeat apply conj; try reflexivity;
    destruct exc; try discriminate; unfold handle; rewrite on_exception_run; reflexivity.
Qed.

Lemma handler_leaves_session_witness :
  trace_of (on_exception on_legacy_update_fails (LibraryError "PipeClosed")
              {| connected_rpc := true; last_machine := PStr "Lame" |}) =
    [PrintExn "Error (will retry):" (LibraryError "PipeClosed");
     PrintTraceback; RpcClear; Sleep 5] /\
  session_of (on_exception on_legacy_update_fails (LibraryError "PipeClosed")
                {| connected_rpc := true; last_machine := PStr "Lame" |}) =
    {| connected_rpc := true; last_machine := PStr "Lame" |} /\
  trace_of (loop_iteration on_legacy_update_fails (connected_on "Lame")) =
    [HttpGet "/user/info"; HttpGet "/user/connection/status";
     HttpGet "/machines/active"; HttpGet "/profile/activity/7";
     PrintVal "Updating presence for:" (PStr "Legacy");
     RpcUpdate (render on_legacy_update_fails (PStr "Legacy") "" no_flags (PStr "player"))]
    ++ [PrintExn "Error (will retry):" (LibraryError "PipeClosed");
        PrintTraceback; RpcClear; Sleep 5] /\
  session_of (loop_iteration on_legacy_update_fails (connected_on "Lame")) =
    {| connected_rpc := true; last_machine := PStr "Lame" |}.
Proof.
  apply (handler_leaves_session on_legacy_update_fails (connected_on "Lame")).
  - reflexivity.
  - reflexivity.
Defined.

(** * Further properties *)

(** ** Counting *)

Lemma count_app P t1 t2 : count P (t1 ++ t2) = (count P t1 + count P t2)%nat.
Proof. unfold count. now rewrite filter_app, length_app. Qed.

Lemma requests_app t1 t2 : requests (t1 ++ t2) = (requests t1 + requests t2)%nat.
Proof. apply count_app. Qed.

Lemma sleeps_app t1 t2 : sleeps (t1 ++ t2) = (sleeps t1 + sleeps t2)%nat.
Proof. apply count_app. Qed.

Lemma seconds_app t1 t2 : seconds (t1 ++ t2) = seconds t1 + seconds t2.
Proof.
  induction t1 as [|ev t1 IH]; [reflexivity|].
  destruct ev; simpl; rewrite IH; lia.
Qed.

Lemma pushed_count t : length (pushed t) = count is_update t.
Proof.
  induction t as [|ev t IH]; [reflexivity|].
  destruct ev; simpl; unfold count in *; simpl; now rewrite ?IH.
Qed.

(** ** Connecting to the chat client (lines 76-84) *)

Lemma ensure_connected_refused w st e :
  connected_rpc st = false ->
  connect_result w = Raises e ->
  is_Exception e = true ->
  ensure_connected w st =
  ([RpcConnect; PrintExn "Discord RPC connect failed, retrying..." e; Sleep 3], st,
   match reconnect_sleep w with
   | Returns _ => Returns false
   | Raises e' => Raises e'
   end).
Proof.
  intros Hc Hr He. unfold ensure_connected. run_monad.
  rewrite Hc, Hr. simpl. rewrite He. simpl.
  destruct (reconnect_sleep w) as [[]|e']; reflexivity.
Qed.

Lemma ensure_connected_connects w st :
  connected_rpc st = false ->
  connect_result w = Returns tt ->
  ensure_connected w st =
  ([RpcConnect; Print "Connected to Discord RPC"],
   {| connected_rpc := true; last_machine := last_machine st |}, Returns true).
Proof.
  intros Hc Hr. unfold ensure_connected. run_monad. now rewrite Hc, Hr.
Qed.

Lemma ensure_connected_interrupted w st e :
  connected_rpc st = false ->
  connect_result w = Raises e ->
  is_Exception e = false ->
  ensure_connected w st = ([RpcConnect], st, Raises e).
Proof.
  intros Hc Hr He. unfold ensure_connected. run_monad.
  rewrite Hc, Hr. simpl. now rewrite He.
Qed.

(** An iteration that cannot connect: one attempt, one log line, a wait
    of 3, and on to the next iteration with the session as it was. *)
Lemma refused_iteration w st :
  connected_rpc st = false -> refused w ->
  exists e,
    loop_iteration w st =
    ([RpcConnect; PrintExn "Discord RPC connect failed, retrying..." e; Sleep 3],
     st, Continue).
Proof.
  intros Hc ((e & Hr & He) & Hs). exists e.
  pose proof (ensure_connected_refused w st e Hc Hr He) as Hrun. rewrite Hs in Hrun.
  unfold loop_iteration, try_body.
  now rewrite (bind_returns _ _ st _ _ false Hrun).
Qed.

(** X1: as long as [rpc.connect()] raises, the loop tries once per
    iteration and waits 3 seconds after each failure; it makes no HTTP
    request, pushes nothing, keeps the session as it was and goes on. *)
Theorem connect_is_retried ws st :
  connected_rpc st = false ->
  Forall refused ws ->
  session_of (main_loop ws st) = st /\
  result_of (main_loop ws st) = Continue /\
  connects (trace_of (main_loop ws st)) = length ws /\
  seconds (trace_of (main_loop ws st)) = 3 * Z.of_nat (length ws) /\
  requests (trace_of (main_loop ws st)) = 0%nat /\
  pushed (trace_of (main_loop ws st)) = [].
Proof.
  intros Hc H. induction H as [|w ws Hw Hws IH].
  - repeat apply conj; reflexivity.
  - destruct (refused_iteration w st Hc Hw) as (e & Hit).
    cbn [main_loop]. rewrite Hit.
    destruct (main_loop ws st) as [[t' st'] c].
    unfold session_of, result_of, trace_of in *. cbn [fst snd] in *.
    destruct IH as (-> & -> & Ht1 & Ht2 & Ht3 & Ht4).
    repeat apply conj; try reflexivity.
    + rewrite connects_app, Ht1. reflexivity.
    + rewrite seconds_app, Ht2. cbn [seconds length]. lia.
    + rewrite requests_app, Ht3. reflexivity.
    + rewrite pushed_app, Ht4. reflexivity.
Qed.

Lemma connect_is_retried_witness :
  session_of (main_loop [no_client; no_client; no_client] initial_session) = initial_session /\
  result_of (main_loop [no_client; no_client; no_client] initial_session) = Continue /\
  connects (trace_of (main_loop [no_client; no_client; no_client] initial_session)) = 3%nat /\
  seconds (trace_of (main_loop [no_client; no_client; no_client] initial_session)) = 9 /\
  requests (trace_of (main_loop [no_client; no_client; no_client] initial_session)) = 0%nat /\
  pushed (trace_of (main_loop [no_client; no_client; no_client] initial_session)) = [].
Proof.
  apply (connect_is_retried [no_client; no_client; no_client] initial_session).
  - reflexivity.
  - repeat constructor; exists (LibraryError "DiscordNotFound"); split; reflexivity.
Defined.

(** The first iteration that connects goes on as an iteration of a
    connected session does. *)
Lemma try_body_connects w st :
  connected_rpc st = false ->
  connect_result w = Returns tt ->
  try_body w st =
  after [RpcConnect; Print "Connected to Discord RPC"]
        (try_body w {| connected_rpc := true; last_machine := last_machine st |}).
Proof.
  intros Hc Hr. unfold try_body.
  rewrite (bind_returns _ _ st _ _ true (ensure_connected_connects w st Hc Hr)).
  set (st1 := {| connected_rpc := true; last_machine := last_machine st |}).
  now rewrite (bind_returns _ _ st1 _ _ true (ensure_connected_already w st1 eq_refl)),
    after_nil.
Qed.

(** X3: when [rpc.connect()] returns, the flag is set, the connection
    is logged, and the same iteration does what an iteration of a
    connected session does: nothing is skipped and nothing is slept in
    between. *)
Theorem connect_then_poll w st :
  connected_rpc st = false ->
  connect_result w = Returns tt ->
  loop_iteration w st =
  (RpcConnect :: Print "Connected to Discord RPC"
     :: trace_of (loop_iteration w {| connected_rpc := true; last_machine := last_machine st |}),
   session_of (loop_iteration w {| connected_rpc := true; last_machine := last_machine st |}),
   result_of (loop_iteration w {| connected_rpc := true; last_machine := last_machine st |})).
Proof.
  intros Hc Hr. unfold loop_iteration.
  rewrite (try_body_connects w st Hc Hr). apply handle_after.
Qed.

Lemma connect_then_poll_witness :
  loop_iteration on_lame initial_session =
  (RpcConnect :: Print "Connected to Discord RPC"
     :: trace_of (loop_iteration on_lame connected_idle),
   session_of (loop_iteration on_lame connected_idle),
   result_of (loop_iteration on_lame connected_idle)).
Proof. exact (connect_then_poll on_lame initial_session eq_refl eq_refl). Defined.

Lemma handle_requests w (r : run unit) : requests (trace_of (handle w r)) = requests (trace_of r).
Proof.
  destruct r as [[t st] [[]|e]]; [reflexivity|].
  destruct e; unfold handle; rewrite ?on_exception_run, ?on_interrupt_run; project;
    rewrite requests_app; apply Nat.add_0_r.
Qed.

Lemma loop_iteration_disconnected w st :
  connected_rpc (session_of (loop_iteration w st)) = false ->
  requests (trace_of (loop_iteration w st)) = 0%nat /\
  pushed (trace_of (loop_iteration w st)) = [].
Proof.
  intros H. destruct (connected_rpc st) eqn:Hc.
  { destruct (loop_iteration_keeps w st Hc) as (Hk & _). congruence. }
  destruct (connect_result w) as [[]|e] eqn:Hr.
  { rewrite (connect_then_poll w st Hc Hr) in H. rewrite session_of_run in H.
    destruct (loop_iteration_keeps w {| connected_rpc := true; last_machine := last_machine st |}
                eq_refl) as (Hk & _).
    congruence. }
  unfold loop_iteration. rewrite handle_requests, handle_pushed. unfold try_body.
  destruct (is_Exception e) eqn:He.
  - pose proof (ensure_connected_refused w st e Hc Hr He) as Hrun.
    destruct (reconnect_sleep w) as [[]|e'].
    + rewrite (bind_returns _ _ st _ _ false Hrun). now split.
    + rewrite (bind_raises _ _ st _ _ e' Hrun). now split.
  - rewrite (bind_raises _ _ st _ _ e (ensure_connected_interrupted w st e Hc Hr He)).
    now split.
Qed.

Lemma main_loop_keeps ws : forall st,
  connected_rpc st = true -> connected_rpc (session_of (main_loop ws st)) = true.
Proof.
  induction ws as [|w ws IH]; intros st H; [exact H|]. cbn [main_loop].
  destruct (loop_iteration_keeps w st H) as (Hc & _).
  destruct (loop_iteration w st) as [[t st'] c]. rewrite session_of_run in Hc.
  destruct c; try exact Hc.
  specialize (IH st' Hc). now destruct (main_loop ws st') as [[t' st''] c'].
Qed.

(** X2: while [connected_rpc] is unset the loop leaves the platform and
    the presence alone: a run that ends with the flag unset has made no
    HTTP request and pushed no presence. *)
Theorem nothing_before_connected ws st :
  connected_rpc (session_of (main_loop ws st)) = false ->
  requests (trace_of (main_loop ws st)) = 0%nat /\
  pushed (trace_of (main_loop ws st)) = [].
Proof.
  revert st. induction ws as [|w ws IH]; intros st H; [now split|].
  cbn [main_loop] in *.
  pose proof (loop_iteration_disconnected w st) as Hit.
  destruct (loop_iteration w st) as [[t st'] c]. project.
  destruct c; try (apply Hit; exact H).
  destruct (connected_rpc st') eqn:Hc.
  { pose proof (main_loop_keeps ws st' Hc) as Hk.
    destruct (main_loop ws st') as [[t' st''] c']. rewrite session_of_run in *. congruence. }
  specialize (IH st'). destruct (Hit Hc) as (Hq & Hp).
  destruct (main_loop ws st') as [[t' st''] c']. rewrite session_of_run in *.
  destruct (IH H) as (Hq' & Hp'). rewrite trace_of_run in *.
  split; [now rewrite requests_app, Hq, Hq'|now rewrite pushed_app, Hp, Hp'].
Qed.

Lemma nothing_before_connected_witness :
  requests (trace_of (main_loop [no_client; interrupted_connect; on_lame] initial_session))
  = 0%nat /\
  pushed (trace_of (main_loop [no_client; interrupted_connect; on_lame] initial_session)) = [].
Proof.
  apply (nothing_before_connected [no_client; interrupted_connect; on_lame] initial_session).
  reflexivity.
Defined.

(** ** Interrupts (lines 158-163) *)

(** X4: an interrupt that leaves the [try] block ends the loop: the
    iteration logs "Exiting.", calls [rpc.clear()] once, whatever that
    call does, and breaks with the session as it was when the interrupt
    arrived; the iterations that would have followed do not run. *)
Theorem interrupt_ends_the_loop w ws st t st' :
  try_body w st = (t, st', Raises KeyboardInterrupt) ->
  loop_iteration w st = (t ++ [Print "Exiting."; RpcClear], st', Break) /\
  main_loop (w :: ws) st = (t ++ [Print "Exiting."; RpcClear], st', Break).
Proof.
  intros H.
  assert (Hit : loop_iteration w st = (t ++ [Print "Exiting."; RpcClear], st', Break)).
  { unfold loop_iteration. rewrite H. unfold handle. now rewrite on_interrupt_run. }
  split; [exact Hit|]. cbn [main_loop]. now rewrite Hit.
Qed.

Lemma interrupt_ends_the_loop_witness :
  loop_iteration interrupted_idle (connected_on "Lame") =
    ([HttpGet "/user/info"; HttpGet "/user/connection/status"; HttpGet "/machines/active";
      Print "No active machine found -> clearing RPC"; RpcClear;
      RpcUpdate connected_presence; Sleep 5]
       ++ [Print "Exiting."; RpcClear], connected_idle, Break) /\
  main_loop [interrupted_idle; on_lame; idle] (connected_on "Lame") =
    ([HttpGet "/user/info"; HttpGet "/user/connection/status"; HttpGet "/machines/active";
      Print "No active machine found -> clearing RPC"; RpcClear;
      RpcUpdate connected_presence; Sleep 5]
       ++ [Print "Exiting."; RpcClear], connected_idle, Break).
Proof.
  exact (interrupt_ends_the_loop interrupted_idle [on_lame; idle] (connected_on "Lame")
           _ _ eq_refl).
Defined.

(** X5: the connection-status step (lines 95-100) raises in one case
    only, an interrupt during the request; every other failure of the
    fetch is swallowed. *)
Theorem connection_step_raises_only_interrupt w st e :
  result_of (fetch_connection w st) = Raises e <->
  e = KeyboardInterrupt /\ connection_reply w = Raises KeyboardInterrupt.
Proof.
  unfold fetch_connection, get_connection_status, api_get. run_monad.
  destruct (connection_reply w) as [r|e0]; simpl.
  - split; [|intros (_ & H); discriminate].
    destruct (negb (status_code r =? 200)); simpl; [discriminate|].
    destruct (json_of r) as [j|e1] eqn:Hj; simpl.
    + destruct (py_get j "status" PNone) as [v|e2] eqn:Hg; simpl; [discriminate|].
      destruct j; simpl in Hg; inversion Hg; subst; simpl; discriminate.
    + unfold json_of in Hj. destruct (json r); inversion Hj. simpl. discriminate.
  - destruct e0; simpl; split; try discriminate;
      try (intros (_ & H); discriminate).
    + intros H. inversion H. now split.
    + intros (-> & _). reflexivity.
Qed.

Lemma connection_step_raises_only_interrupt_witness :
  result_of (fetch_connection interrupted_status connected_idle) = Raises KeyboardInterrupt.
Proof.
  apply (proj2 (connection_step_raises_only_interrupt interrupted_status connected_idle
                  KeyboardInterrupt)).
  split; reflexivity.
Defined.

Lemma py_get_raises v k d e : py_get v k d = Raises e -> e = AttributeError.
Proof. destruct v; simpl; intros H; inversion H; reflexivity. Qed.

Lemma scan_activity_raises machine_name act : forall flags f e,
  scan_activity machine_name act flags = (f, Some e) -> e = AttributeError.
Proof.
  induction act as [|rec rest IH]; intros flags f e; simpl; [discriminate|].
  destruct (py_get rec "name" PNone) as [name|e0] eqn:Hn.
  - destruct (py_eq name machine_name); [|apply IH].
    destruct (py_get rec "type" PNone) as [typ|e1] eqn:Ht.
    + destruct (py_eq typ (PStr "user")); [apply IH|].
      destruct (py_eq typ (PStr "root")); apply IH.
    + intros H. inversion H; subst. now apply py_get_raises in Ht.
  - intros H. inversion H; subst. now apply py_get_raises in Hn.
Qed.

(** Whatever the log, the scan hands its flags on. *)
Lemma scanned_returns machine_name act flags st :
  scanned (scan_activity machine_name act flags) st =
  ([], st, Returns (fst (scan_activity machine_name act flags))).
Proof.
  destruct (scan_activity machine_name act flags) as [f [e|]] eqn:Hs; [|reflexivity].
  apply scan_activity_raises in Hs. subst. reflexivity.
Qed.

(** X6: the activity step (lines 121-134) raises in one case only, an
    interrupt during its request; it makes that request only when the
    user info is an object. *)
Theorem activity_step_raises_only_interrupt w st user machine_name e :
  result_of (fetch_activity_flags w user machine_name st) = Raises e <->
  e = KeyboardInterrupt /\ is_dict user = true /\
  activity_reply w = Raises KeyboardInterrupt.
Proof.
  unfold fetch_activity_flags, api_get.
  destruct (py_get user "id" PNone) as [uid|e0] eqn:Hid.
  2:{ apply py_get_raises in Hid as Hid'. subst.
      destruct user; try discriminate; run_monad;
        (split; [discriminate|intros (_ & H & _); discriminate]). }
  assert (Hd : is_dict user = true) by (destruct user; try discriminate; reflexivity).
  run_monad.
  destruct (activity_reply w) as [r|e1]; simpl.
  - split; [|intros (_ & _ & H); discriminate].
    destruct (status_code r =? 200); simpl; [|discriminate].
    destruct (json_of r) as [j|e2] eqn:Hj; simpl.
    2:{ unfold json_of in Hj. destruct (json r); inversion Hj. simpl. discriminate. }
    destruct (py_get j "profile" (PDict [])) as [p|e2] eqn:Hp; simpl.
    2:{ apply py_get_raises in Hp. subst. simpl. discriminate. }
    destruct (py_get p "activity" (PList [])) as [a|e2] eqn:Ha; simpl.
    2:{ apply py_get_raises in Ha. subst. simpl. discriminate. }
    destruct (py_iter a) as [recs|e2] eqn:Hi; simpl.
    2:{ destruct a; inversion Hi; simpl; discriminate. }
    rewrite scanned_returns. simpl. discriminate.
  - destruct e1; simpl; split; try discriminate;
      try (intros (_ & _ & H); discriminate).
    + intros H. inversion H. now repeat split.
    + intros (-> & _). reflexivity.
Qed.

Lemma activity_step_raises_only_interrupt_witness :
  result_of (fetch_activity_flags interrupted_activity player (PStr "Lame") connected_idle)
  = Raises KeyboardInterrupt.
Proof.
  apply (proj2 (activity_step_raises_only_interrupt interrupted_activity connected_idle
                  player (PStr "Lame") KeyboardInterrupt)).
  repeat split.
Defined.

(** X7: when the wait of line 171 is itself cut short, no clause
    catches what it raises: the loop ends there with the exception
    uncaught; "Exiting." is not logged and no further clear is made. *)
Theorem interrupted_retry_wait_escapes w ws st t st' exc e' :
  try_body w st = (t, st', Raises exc) ->
  is_Exception exc = true ->
  retry_sleep w = Raises e' ->
  main_loop (w :: ws) st =
  (t ++ [PrintExn "Error (will retry):" exc; PrintTraceback; RpcClear; Sleep 5],
   st', Uncaught e').
Proof.
  intros Hb He Hs. cbn [main_loop]. unfold loop_iteration. rewrite Hb.
  destruct exc; try discriminate; unfold handle; rewrite on_exception_run, Hs; reflexivity.
Qed.

Lemma interrupted_retry_wait_escapes_witness :
  main_loop [interrupted_retry; idle] connected_idle =
  ([HttpGet "/user/info";
    PrintExn "Failed to fetch user info:" (RuntimeError "user/info 401: Server Error")]
     ++ [PrintExn "Error (will retry):" (RuntimeError "user/info 401: Server Error");
         PrintTraceback; RpcClear; Sleep 5],
   connected_idle, Uncaught KeyboardInterrupt).
Proof.
  exact (interrupted_retry_wait_escapes interrupted_retry [idle] connected_idle _ _
           (RuntimeError "user/info 401: Server Error") KeyboardInterrupt
           eq_refl eq_refl eq_refl).
Defined.

(** ** The active machine and its avatar *)

(** X8: the active-machine fetch hands on [None] or a truthy value,
    never a falsy one: a 200 whose [info] is falsy (null, an empty
    object, [false], [0], an empty string or list) is "no machine". *)
Theorem active_machine_is_none_or_truthy w st :
  (forall v, result_of (get_active_machine w st) = Returns v ->
             v = PNone \/ truthy v = true) /\
  (forall r j info,
     active_reply w = Returns r -> status_code r = 200 -> json r = Some j ->
     py_get j "info" PNone = Returns info -> truthy info = false ->
     get_active_machine w st = ([HttpGet "/machines/active"], st, Returns PNone)).
Proof.
  split.
  - intros v. unfold get_active_machine, api_get. run_monad.
    destruct (active_reply w) as [r|e]; simpl; [|discriminate].
    destruct (status_code r =? 404); simpl; [intros H; inversion H; now left|].
    destruct (negb (status_code r =? 200)); simpl; [discriminate|].
    destruct (json_of r) as [j|e]; simpl; [|discriminate].
    destruct (py_get j "info" PNone) as [info|e]; simpl; [|discriminate].
    destruct (truthy info) eqn:Ht; simpl; intros H; inversion H; subst; auto.
  - intros r j info Hr Hs Hj Hi Ht. unfold get_active_machine, api_get. run_monad.
    rewrite Hr. simpl. rewrite Hs. simpl. unfold json_of. rewrite Hj. simpl.
    rewrite Hi. simpl. now rewrite Ht.
Qed.

Lemma active_machine_is_none_or_truthy_witness :
  (PNone = PNone \/ truthy PNone = true) /\
  get_active_machine empty_info connected_idle =
    ([HttpGet "/machines/active"], connected_idle, Returns PNone).
Proof.
  split.
  - exact (proj1 (active_machine_is_none_or_truthy empty_info connected_idle) PNone eq_refl).
  - exact (proj2 (active_machine_is_none_or_truthy empty_info connected_idle)
             {| status_code := 200; text := ""; json := Some (PDict [("info", PDict [])]) |}
             (PDict [("info", PDict [])]) (PDict [])
             eq_refl eq_refl eq_refl eq_refl eq_refl).
Defined.

(** What lines 116-117 make of an avatar: an absolute address, or
    nothing; never a path. *)
Lemma resolve_avatar_absolute avatar a :
  resolve_avatar avatar = Returns a ->
  String.prefix "/" a = false /\ resolve_avatar (PStr a) = Returns a.
Proof.
  unfold resolve_avatar.
  destruct (truthy avatar) eqn:Ht.
  - destruct avatar as [| | |s| |]; try discriminate.
    destruct (String.prefix "/" s) eqn:Hp; intros H; inversion H; subst; clear H.
    + split; [reflexivity|]. reflexivity.
    + split; [assumption|]. cbv zeta. rewrite Ht. now rewrite Hp.
  - intros H. inversion H. split; reflexivity.
Qed.

(** X9: the avatar address of lines 116-117 is never a path: when an
    avatar resolves, the result does not start with "/", and resolving
    the result again changes nothing; a path is put on the platform's
    origin and anything else is kept as it is. *)
Theorem avatar_is_resolved_once avatar a :
  resolve_avatar avatar = Returns a ->
  String.prefix "/" a = false /\
  resolve_avatar (PStr a) = Returns a /\
  (forall s, avatar = PStr s -> String.prefix "/" s = true ->
             a = ("https://app.hackthebox.com" ++ s)%string) /\
  (forall s, avatar = PStr s -> String.prefix "/" s = false -> a = s).
Proof.
  intros H. destruct (resolve_avatar_absolute avatar a H) as (H1 & H2).
  repeat apply conj; try assumption.
  - intros s -> Hp. unfold resolve_avatar in H.
    destruct s as [|c s]; [discriminate|]. simpl truthy in H. cbv iota in H.
    rewrite Hp in H. now inversion H.
  - intros s -> Hp. unfold resolve_avatar in H.
    destruct s as [|c s]; [now inversion H|]. simpl truthy in H. cbv iota in H.
    rewrite Hp in H. now inversion H.
Qed.

Lemma avatar_is_resolved_once_witness :
  String.prefix "/" "https://app.hackthebox.com/img/lame.png" = false /\
  resolve_avatar (PStr "https://app.hackthebox.com/img/lame.png") =
    Returns "https://app.hackthebox.com/img/lame.png".
Proof.
  destruct (avatar_is_resolved_once (PStr "/img/lame.png")
              "https://app.hackthebox.com/img/lame.png" eq_refl) as (H1 & H2 & _).
  exact (conj H1 H2).
Defined.

(** X10: an iteration with an active machine always pushes a large
    image that is neither empty nor a path: the avatar on the
    platform's origin, the avatar as given, or "htb_logo". *)
Theorem large_image_is_never_blank
        w st user connection active machine_name machine_avatar display_name flags :
  polls w st user connection ->
  presents w st user active machine_name machine_avatar display_name ->
  scans w st user machine_name flags ->
  exists p image,
    pushed (trace_of (loop_iteration w st)) = [p] /\
    large_image p = Some image /\
    (image =? "")%string = false /\
    String.prefix "/" image = false /\
    (image = "htb_logo" \/ image = machine_avatar).
Proof.
  intros Hp Hpr Hs.
  destruct (present_iteration _ _ _ _ _ _ _ _ _ Hp Hpr Hs) as (Hpush & _).
  destruct Hpr as (_ & _ & _ & (avatar & _ & Hr) & _).
  destruct (resolve_avatar_absolute avatar machine_avatar Hr) as (Habs & _).
  exists (render w machine_name machine_avatar flags display_name).
  simpl large_image.
  destruct (machine_avatar =? "")%string eqn:He.
  - exists "htb_logo". repeat apply conj; auto.
  - exists machine_avatar. repeat apply conj; auto.
Qed.

Lemma large_image_is_never_blank_witness :
  exists p image,
    pushed (trace_of (loop_iteration on_lame_bare connected_idle)) = [p] /\
    large_image p = Some image /\
    (image =? "")%string = false /\
    String.prefix "/" image = false /\
    (image = "htb_logo" \/ image = "").
Proof.
  apply (large_image_is_never_blank on_lame_bare connected_idle player (PBool true)
           (PDict [("name", PStr "Lame")]) (PStr "Lame") "" (PStr "player")
           {| flag_user := true; flag_root := false |}).
  - repeat apply conj; reflexivity.
  - repeat apply conj; try reflexivity. exists PNone. split; reflexivity.
  - reflexivity.
Defined.

(** ** The activity scan (lines 126-132) *)

Lemma py_eq_to_str v n : py_eq v (PStr n) = true -> v = PStr n.
Proof.
  destruct v; simpl; try discriminate.
  intros H. apply String.eqb_eq in H. now subst.
Qed.

Lemma or_flags_none f :
  {| flag_user := flag_user f || false; flag_root := flag_root f || false |} = f.
Proof. destruct f as [[|] [|]]; reflexivity. Qed.

(** X13: the scan only ever sets flags.  Started from any flags, it
    ends with those flags joined with what the scan of the same log
    from no flags finds, and it stops at the same record. *)
Theorem scan_only_sets_flags machine_name act flags :
  scan_activity machine_name act flags =
  ({| flag_user := flag_user flags
                   || flag_user (fst (scan_activity machine_name act no_flags));
      flag_root := flag_root flags
                   || flag_root (fst (scan_activity machine_name act no_flags)) |},
   snd (scan_activity machine_name act no_flags)).
Proof.
  revert flags. induction act as [|rec rest IH]; intros flags; simpl.
  - now rewrite or_flags_none.
  - destruct (py_get rec "name" PNone) as [name|e]; simpl; [|now rewrite or_flags_none].
    destruct (py_eq name machine_name); [|apply IH].
    destruct (py_get rec "type" PNone) as [typ|e]; simpl; [|now rewrite or_flags_none].
    destruct (py_eq typ (PStr "user")).
    { rewrite (IH {| flag_user := true; flag_root := flag_root flags |}).
      rewrite (IH {| flag_user := true; flag_root := false |}). simpl.
      now rewrite Bool.orb_true_r. }
    destruct (py_eq typ (PStr "root")); [|apply IH].
    rewrite (IH {| flag_user := flag_user flags; flag_root := true |}).
    rewrite (IH {| flag_user := false; flag_root := true |}). simpl.
    now rewrite Bool.orb_true_r.
Qed.

Lemma scan_well_formed machine_name act : forall flags,
  well_formed act = true ->
  scan_activity machine_name act flags =
  ({| flag_user := flag_user flags || existsb (owns machine_name "user") act;
      flag_root := flag_root flags || existsb (owns machine_name "root") act |},
   None).
Proof.
  induction act as [|rec rest IH]; intros flags Hw; simpl.
  - now rewrite or_flags_none.
  - simpl in Hw. apply andb_prop in Hw as (Hd & Hw).
    destruct rec as [| | | | |d]; try discriminate. unfold owns. simpl.
    destruct (py_eq _ machine_name); simpl; [|now apply IH].
    destruct (py_eq _ (PStr "user")) eqn:Hu; simpl.
    + apply py_eq_to_str in Hu. rewrite Hu. simpl.
      rewrite (IH _ Hw). simpl. now rewrite Bool.orb_true_r.
    + destruct (py_eq _ (PStr "root")) eqn:Hr; simpl; [|now apply IH].
      rewrite (IH _ Hw). simpl. now rewrite Bool.orb_true_r.
Qed.

(** X11: on a log whose records are all objects the scan raises
    nothing, and a flag ends up set exactly when it was set before or
    the log holds a record with the machine's name and that flag's
    type. *)
Theorem scan_finds_owned_flags machine_name act flags :
  well_formed act = true ->
  scan_activity machine_name act flags =
  ({| flag_user := flag_user flags || existsb (owns machine_name "user") act;
      flag_root := flag_root flags || existsb (owns machine_name "root") act |},
   None).
Proof. apply scan_well_formed. Qed.

Lemma scan_finds_owned_flags_witness :
  scan_activity (PStr "Lame")
    [own "Legacy" "root"; own "Lame" "root"; own "Lame" "user"] no_flags =
  ({| flag_user := true; flag_root := true |}, None).
Proof.
  exact (scan_finds_owned_flags (PStr "Lame")
           [own "Legacy" "root"; own "Lame" "root"; own "Lame" "user"] no_flags eq_refl).
Defined.

Lemma scan_stops good : forall machine_name bad rest flags,
  well_formed good = true ->
  is_dict bad = false ->
  scan_activity machine_name (good ++ bad :: rest) flags =
  (fst (scan_activity machine_name good flags), Some AttributeError).
Proof.
  induction good as [|rec good IH]; intros machine_name bad rest flags Hw Hb; simpl.
  - destruct bad; try discriminate; reflexivity.
  - simpl in Hw. apply andb_prop in Hw as (Hd & Hw).
    destruct rec as [| | | | |d]; try discriminate. simpl.
    destruct (py_eq _ machine_name); [|now apply IH].
    destruct (py_eq _ (PStr "user")); [now apply IH|].
    destruct (py_eq _ (PStr "root")); now apply IH.
Qed.

(** X12: a record that is not an object ends the scan without aborting
    the iteration: the activity step returns the flags found in the
    records before it, and the records after it are not looked at. *)
Theorem malformed_record_ends_scan w st user uid machine_name r good bad rest :
  py_get user "id" PNone = Returns uid ->
  activity_reply w = Returns r ->
  status_code r = 200 ->
  json r = Some (PDict [("profile", PDict [("activity", PList (good ++ bad :: rest))])]) ->
  well_formed good = true ->
  is_dict bad = false ->
  fetch_activity_flags w user machine_name st =
  ([HttpGet ("/profile/activity/" ++ py_str w uid)%string], st,
   Returns {| flag_user := existsb (owns machine_name "user") good;
              flag_root := existsb (owns machine_name "root") good |}).
Proof.
  intros Hid Hr Hs Hj Hw Hb. unfold fetch_activity_flags, api_get.
  rewrite Hid. run_monad. rewrite Hr. simpl. rewrite Hs. simpl.
  unfold json_of. rewrite Hj. simpl.
  rewrite scanned_returns, (scan_stops good machine_name bad rest no_flags Hw Hb).
  simpl. now rewrite (scan_well_formed machine_name good no_flags Hw).
Qed.

Lemma malformed_record_ends_scan_witness :
  fetch_activity_flags broken_log player (PStr "Lame") connected_idle =
  ([HttpGet "/profile/activity/7"], connected_idle,
   Returns {| flag_user := true; flag_root := false |}).
Proof.
  exact (malformed_record_ends_scan broken_log connected_idle player (PInt 7) (PStr "Lame")
           {| status_code := 200; text := "";
              json := Some (activity [own "Lame" "user"; PInt 5; own "Lame" "root"]) |}
           [own "Lame" "user"] (PInt 5) [own "Lame" "root"]
           eq_refl eq_refl eq_refl eq_refl eq_refl eq_refl).
Defined.

(** ** What [last_machine] records *)

Lemma recorded_trans w old t1 st1 t2 st2 :
  recorded w old t1 st1 ->
  recorded w (last_machine st1) t2 st2 ->
  recorded w old (t1 ++ t2) st2.
Proof.
  unfold recorded. intros H1 [H2|[(H2 & Hc & Hn)|(Hu & p & Hin & Hd)]].
  - rewrite H2. destruct H1 as [H1|[(H1 & Hc & Hn)|(Hu & p & Hin & Hd)]].
    + now left.
    + right; left. repeat split; try assumption. rewrite clears_app. lia.
    + right; right. split; [assumption|]. exists p. split; [|assumption].
      rewrite pushed_app. apply in_or_app. now left.
  - right; left. repeat split; try assumption. rewrite clears_app. lia.
  - right; right. split; [assumption|]. exists p. split; [|assumption].
    rewrite pushed_app. apply in_or_app. now right.
Qed.

Lemma tracks_unchanged {A} w (m : M A) :
  (forall st, last_machine (session_of (m st)) = last_machine st) -> tracks w m.
Proof. intros H st. left. apply H. Qed.

Lemma tracks_reads {A} w (m : M A) : reads m -> tracks w m.
Proof. intros (t & r & _ & H). apply tracks_unchanged. intros st. now rewrite H. Qed.

Lemma tracks_bind {A B} w (m : M A) (f : A -> M B) :
  tracks w m -> (forall a, tracks w (f a)) -> tracks w (x <- m ;; f x).
Proof.
  intros Hm Hf st. specialize (Hm st). unfold bind.
  destruct (m st) as [[t st'] [a|e]]; project; [|exact Hm].
  unfold after. project. rewrite session_of_run, trace_of_run in Hm.
  exact (recorded_trans w _ t st' _ _ Hm (Hf a st')).
Qed.

Lemma tracks_try_except {A} w (m : M A) (h : exn -> M A) :
  tracks w m -> (forall e, tracks w (h e)) -> tracks w (try_except m h).
Proof.
  intros Hm Hh st. specialize (Hm st). unfold try_except.
  destruct (m st) as [[t st'] [a|e]]; project; [exact Hm|].
  destruct (is_Exception e); [|exact Hm].
  unfold after. project. rewrite session_of_run, trace_of_run in Hm.
  exact (recorded_trans w _ t st' _ _ Hm (Hh e st')).
Qed.

(** Line 106-107, and lines 149-151. *)
Lemma tracks_clear w : tracks w (call RpcClear (clear_result w) ;; set_last_machine PNone).
Proof.
  intros st. run_monad. destruct (clear_result w) as [[]|e] eqn:Hc; simpl.
  - right; left. split; [reflexivity|]. split; [assumption|].
    unfold clears. simpl. lia.
  - now left.
Qed.

Lemma tracks_update w p v :
  details p = Some (py_str w v) ->
  tracks w (call (RpcUpdate p) (update_result w) ;; set_last_machine v).
Proof.
  intros Hd st. run_monad. destruct (update_result w) as [[]|e] eqn:Hu; simpl.
  - right; right. split; [assumption|]. exists p. split; [now left|assumption].
  - now left.
Qed.

Ltac tracks_leaf :=
  first [ apply tracks_clear
        | apply tracks_update; reflexivity
        | apply tracks_unchanged; intros ?; reflexivity
        | apply tracks_unchanged; intros ?; run_monad;
          match goal with |- context [match ?o with _ => _ end] => destruct o end;
          reflexivity ].

Ltac tracks_steps :=
  repeat first
    [ tracks_leaf
    | apply tracks_bind; [|intros ?]
    | apply tracks_try_except; [|intros ?]
    | match goal with
      | |- tracks _ (if ?b then _ else _) => destruct b
      end ].

Lemma tracks_ensure_connected w : tracks w (ensure_connected w).
Proof. unfold ensure_connected, sleep. tracks_steps. Qed.

Lemma tracks_no_active_machine w connection : tracks w (no_active_machine w connection).
Proof. unfold no_active_machine, sleep. tracks_steps. Qed.

Lemma tracks_push_presence w v p :
  details p = Some (py_str w v) -> tracks w (push_presence w v p).
Proof.
  intros Hd. unfold push_presence, sleep.
  apply tracks_bind; [tracks_leaf|intros st0].
  apply tracks_bind; [|intros ?; tracks_leaf].
  destruct (negb (py_eq v (last_machine st0))); [|tracks_leaf].
  apply tracks_bind; [tracks_leaf|intros _]. now apply tracks_update.
Qed.

Lemma tracks_try_body w : tracks w (try_body w).
Proof.
  unfold try_body.
  apply tracks_bind; [apply tracks_ensure_connected|intros [|]; [|tracks_leaf]].
  apply tracks_bind;
    [apply tracks_reads; unfold fetch_user, get_user_info, api_get; reads_steps|intros user].
  apply tracks_bind; [apply tracks_reads, fetch_connection_reads|intros connection].
  unfold reconcile.
  apply tracks_bind; [apply tracks_reads, get_active_machine_reads|intros active].
  destruct (negb (truthy active)); [apply tracks_no_active_machine|].
  unfold active_machine.
  apply tracks_bind; [tracks_leaf|intros machine_name].
  apply tracks_bind; [tracks_leaf|intros avatar].
  apply tracks_bind; [tracks_leaf|intros machine_avatar].
  apply tracks_bind; [apply tracks_reads, fetch_activity_flags_reads|intros flags].
  apply tracks_bind; [destruct (truthy user); tracks_leaf|intros small_text].
  now apply tracks_push_presence.
Qed.

Lemma handle_trace w (r : run unit) :
  exists t', trace_of (handle w r) = trace_of r ++ t'.
Proof.
  destruct r as [[t st] [[]|e]].
  - exists []. unfold handle. project. now rewrite List.app_nil_r.
  - destruct e; unfold handle; rewrite ?on_exception_run, ?on_interrupt_run; project;
      eexists; reflexivity.
Qed.

(** X14: an iteration changes [last_machine] in two ways only.  It is
    reset to [None] when the [rpc.clear()] of line 106 has been called
    and returned; it is set to a name when [rpc.update] has been called
    with that name as details and returned.  Nothing else touches it:
    no fetch, no failure, no handler. *)
Theorem last_machine_follows_the_presence w st :
  last_machine (session_of (loop_iteration w st)) = last_machine st \/
  (last_machine (session_of (loop_iteration w st)) = PNone /\
   clear_result w = Returns tt /\
   (1 <= clears (trace_of (loop_iteration w st)))%nat) \/
  (update_result w = Returns tt /\
   exists p,
     In p (pushed (trace_of (loop_iteration w st))) /\
     details p = Some (py_str w (last_machine (session_of (loop_iteration w st))))).
Proof.
  unfold loop_iteration. rewrite handle_session.
  destruct (handle_trace w (try_body w st)) as (t' & ->).
  pose proof (tracks_try_body w st) as H.
  pose proof (recorded_trans w (last_machine st) (trace_of (try_body w st))
                (session_of (try_body w st)) t' (session_of (try_body w st)) H
                (or_introl eq_refl)) as H'.
  exact H'.
Qed.

(** ** Every iteration waits *)

Lemma slept_bind {A B} (m : M A) (f : A -> M B) :
  (forall a, slept (f a)) -> slept (x <- m ;; f x).
Proof.
  intros Hf st b. unfold bind.
  destruct (m st) as [[t st'] [a|e]]; project; [|discriminate].
  unfold after. project. intros H. specialize (Hf a st' b H).
  rewrite sleeps_app. lia.
Qed.

Lemma slept_sleep s o : slept (sleep s o).
Proof.
  intros st a. unfold sleep. run_monad. intros _.
  destruct o; unfold sleeps, count; simpl; lia.
Qed.

Lemma slept_no_active_machine w connection : slept (no_active_machine w connection).
Proof.
  unfold no_active_machine. do 3 (apply slept_bind; intros ?). apply slept_sleep.
Qed.

Lemma slept_active_machine w user active : slept (active_machine w user active).
Proof.
  unfold active_machine, push_presence.
  do 7 (apply slept_bind; intros ?). apply slept_sleep.
Qed.

Lemma ensure_connected_false w st :
  result_of (ensure_connected w st) = Returns false ->
  (1 <= sleeps (trace_of (ensure_connected w st)))%nat.
Proof.
  unfold ensure_connected. run_monad.
  destruct (connected_rpc st); simpl; [discriminate|].
  destruct (connect_result w) as [[]|e]; simpl; [discriminate|].
  destruct (is_Exception e); simpl; [|discriminate].
  destruct (reconnect_sleep w) as [[]|e']; simpl; intros _; unfold sleeps, count; simpl; lia.
Qed.

Lemma try_body_slept w st :
  result_of (try_body w st) = Returns tt ->
  (1 <= sleeps (trace_of (try_body w st)))%nat.
Proof.
  unfold try_body.
  pose proof (ensure_connected_false w st) as Hfalse.
  destruct (ensure_connected w st) as [[t st'] [[|]|e]] eqn:He.
  - rewrite (bind_returns _ _ st _ _ true He). unfold after. project.
    intros H. rewrite sleeps_app.
    assert (Hs : slept (user <- fetch_user w ;; connection <- fetch_connection w ;;
                        reconcile w user connection)).
    { do 2 (apply slept_bind; intros ?). unfold reconcile.
      apply slept_bind; intros active.
      destruct (negb (truthy active));
        [apply slept_no_active_machine|apply slept_active_machine]. }
    specialize (Hs st' tt H). lia.
  - rewrite (bind_returns _ _ st _ _ false He). intros _. unfold after, ret. project.
    rewrite List.app_nil_r. now apply Hfalse.
  - rewrite (bind_raises _ _ st _ _ e He). discriminate.
Qed.

Lemma loop_iteration_slept w st :
  result_of (loop_iteration w st) = Continue ->
  (1 <= sleeps (trace_of (loop_iteration w st)))%nat.
Proof.
  unfold loop_iteration. pose proof (try_body_slept w st) as H.
  destruct (try_body w st) as [[t st'] [[]|e]]; project.
  - intros _. unfold handle. project. now apply H.
  - destruct e; unfold handle; rewrite ?on_exception_run, ?on_interrupt_run; project;
      try discriminate; intros _; rewrite sleeps_app; unfold sleeps at 2, count; simpl; lia.
Qed.

(** X15: the loop never spins.  Every iteration that goes on to the
    next one has called [time.sleep] on its way, so a run of [n]
    iterations that is still going has slept at least [n] times. *)
Theorem loop_never_spins ws st :
  result_of (main_loop ws st) = Continue ->
  (length ws <= sleeps (trace_of (main_loop ws st)))%nat.
Proof.
  revert st. induction ws as [|w ws IH]; intros st; cbn [main_loop length]; [intros _; lia|].
  pose proof (loop_iteration_slept w st) as Hit.
  destruct (loop_iteration w st) as [[t st'] c].
  destruct c; try discriminate.
  specialize (IH st'). destruct (main_loop ws st') as [[t' st''] c'].
  unfold trace_of, result_of in *. cbn [fst snd] in *.
  intros H. specialize (IH H). specialize (Hit eq_refl). rewrite sleeps_app. lia.
Qed.

Lemma loop_never_spins_witness :
  (4 <= sleeps (trace_of (main_loop [no_client; on_lame; user_info_down; idle_clear_fails]
                            initial_session)))%nat.
Proof.
  exact (loop_never_spins [no_client; on_lame; user_info_down; idle_clear_fails]
           initial_session eq_refl).
Defined.

(** ** The work of one iteration is bounded *)

Lemma bounded_weaken {A} P a b (m : M A) :
  bounded P a m -> (a <=? b)%nat = true -> bounded P b m.
Proof. intros H Hle st. apply Nat.leb_le in Hle. specialize (H st). lia. Qed.

Lemma bounded_silent {A} P (m : M A) :
  (forall st, trace_of (m st) = []) -> bounded P 0 m.
Proof. intros H st. now rewrite H. Qed.

Lemma bounded_call {A} P ev (o : outcome A) b :
  P ev = b -> bounded P (if b then 1 else 0) (call ev o).
Proof.
  intros Hb st. run_monad. unfold count. simpl. rewrite Hb.
  destruct b; simpl; lia.
Qed.

Lemma bounded_emit P ev b : P ev = b -> bounded P (if b then 1 else 0) (emit ev).
Proof.
  intros Hb st. run_monad. unfold count. simpl. rewrite Hb.
  destruct b; simpl; lia.
Qed.

Lemma bounded_bind {A B} P a b (m : M A) (f : A -> M B) :
  bounded P a m -> (forall x, bounded P b (f x)) -> bounded P (a + b) (x <- m ;; f x).
Proof.
  intros Hm Hf st. specialize (Hm st). unfold bind.
  destruct (m st) as [[t st'] [x|e]]; project; [|rewrite trace_of_run in Hm; lia].
  unfold after. project. rewrite count_app. rewrite trace_of_run in Hm.
  specialize (Hf x st'). lia.
Qed.

Lemma bounded_try_except {A} P a b (m : M A) (h : exn -> M A) :
  bounded P a m -> (forall e, bounded P b (h e)) -> bounded P (a + b) (try_except m h).
Proof.
  intros Hm Hh st. specialize (Hm st). unfold try_except.
  destruct (m st) as [[t st'] [x|e]]; rewrite trace_of_run in Hm; project; [lia|].
  destruct (is_Exception e); project; [|lia].
  unfold after. project. rewrite count_app. specialize (Hh e st'). lia.
Qed.

Lemma bounded_try_pass P a (m : M unit) : bounded P a m -> bounded P a (try_pass m).
Proof.
  intros Hm st. specialize (Hm st). unfold try_pass.
  now destruct (m st) as [[t st'] r].
Qed.

Lemma bounded_if {A} P a b (c : bool) (m1 m2 : M A) :
  bounded P a m1 -> bounded P b m2 -> bounded P (Nat.max a b) (if c then m1 else m2).
Proof. intros H1 H2 st. specialize (H1 st). specialize (H2 st). destruct c; lia. Qed.

Lemma bounded_scanned P r : bounded P 0 (scanned r).
Proof.
  apply bounded_silent. intros st. destruct r as [f [e|]]; [|reflexivity].
  unfold scanned. destruct (is_Exception e); reflexivity.
Qed.

Ltac bounded_leaf :=
  lazymatch goal with
  | |- bounded ?P _ (call ?ev _) =>
      let b := eval cbv in (P ev) in apply (bounded_call P ev _ b); reflexivity
  | |- bounded ?P _ (emit ?ev) =>
      let b := eval cbv in (P ev) in apply (bounded_emit P ev b); reflexivity
  | |- bounded _ _ (scanned _) => apply bounded_scanned
  | |- bounded _ _ _ => apply bounded_silent; intros ?; reflexivity
  end.

Ltac bounded_steps :=
  repeat first
    [ eapply bounded_bind; [|intros ?]
    | eapply bounded_try_except; [|intros ?]
    | eapply bounded_if
    | eapply bounded_try_pass
    | bounded_leaf ].

Ltac unfold_program :=
  unfold try_body, ensure_connected, fetch_user, fetch_connection, reconcile,
    get_user_info, get_connection_status, get_active_machine, no_active_machine,
    active_machine, fetch_activity_flags, push_presence, api_get, sleep.

Lemma try_body_requests w : bounded is_request 4 (try_body w).
Proof.
  eapply bounded_weaken; [unfold_program; bounded_steps|reflexivity].
Qed.

Lemma try_body_updates w : bounded is_update 1 (try_body w).
Proof.
  eapply bounded_weaken; [unfold_program; bounded_steps|reflexivity].
Qed.

Lemma try_body_clears w : bounded is_clear 1 (try_body w).
Proof.
  eapply bounded_weaken; [unfold_program; bounded_steps|reflexivity].
Qed.

Lemma try_body_connects_once w : bounded is_connect 1 (try_body w).
Proof.
  eapply bounded_weaken; [unfold_program; bounded_steps|reflexivity].
Qed.

Lemma handle_clears w (r : run unit) :
  (clears (trace_of (handle w r)) <= clears (trace_of r) + 1)%nat.
Proof.
  destruct r as [[t st] [[]|e]]; [unfold handle; project; lia|].
  destruct e; unfold handle; rewrite ?on_exception_run, ?on_interrupt_run; project;
    rewrite clears_app; unfold clears at 2; simpl; lia.
Qed.

(** X20: one iteration makes at most four HTTP requests, pushes at
    most one presence, calls [rpc.clear()] at most twice (once in the
    body, once in a handler) and [rpc.connect()] at most once, whatever
    the platform and the chat client answer. *)
Theorem iteration_work_is_bounded w st :
  (requests (trace_of (loop_iteration w st)) <= 4)%nat /\
  (length (pushed (trace_of (loop_iteration w st))) <= 1)%nat /\
  (clears (trace_of (loop_iteration w st)) <= 2)%nat /\
  (connects (trace_of (loop_iteration w st)) <= 1)%nat.
Proof.
  unfold loop_iteration.
  rewrite handle_requests, handle_pushed, handle_connects, pushed_count.
  pose proof (handle_clears w (try_body w st)) as Hc.
  pose proof (try_body_requests w st) as H1.
  pose proof (try_body_updates w st) as H2.
  pose proof (try_body_clears w st) as H3.
  pose proof (try_body_connects_once w st) as H4.
  unfold requests, clears, connects, count in *. repeat apply conj; lia.
Qed.

(** ** Missing values *)

Lemma falsy_user_no_request w st user machine_name :
  is_dict user = false ->
  fetch_activity_flags w user machine_name st = ([], st, Returns no_flags).
Proof.
  intros H. unfold fetch_activity_flags.
  destruct user; try discriminate; reflexivity.
Qed.

(** X16: when the user info is missing (the 200 body has no [info], or
    a null one), an iteration with an active machine still pushes: it
    makes no activity request, shows both flags as not owned and leaves
    the small text empty. *)
Theorem missing_user_info_still_pushes
        w st connection active machine_name machine_avatar display_name :
  polls w st PNone connection ->
  presents w st PNone active machine_name machine_avatar display_name ->
  fetch_activity_flags w PNone machine_name st = ([], st, Returns no_flags) /\
  pushed (trace_of (loop_iteration w st)) =
    [{| details := Some (py_str w machine_name);
        state := Some "User: 🔴 | Root: 🔴";
        large_image := Some (if (machine_avatar =? "")%string then "htb_logo"
                             else machine_avatar);
        large_text := None;
        small_image := Some "";
        small_text := Some (PStr "") |}].
Proof.
  intros Hp Hpr.
  pose proof (falsy_user_no_request w st PNone machine_name eq_refl) as Hf.
  split; [exact Hf|].
  assert (Hs : scans w st PNone machine_name no_flags) by (unfold scans; now rewrite Hf).
  assert (Hd : display_name = PStr "").
  { destruct Hpr as (_ & _ & _ & _ & H). simpl in H. now inversion H. }
  subst. exact (proj1 (present_iteration _ _ _ _ _ _ _ _ _ Hp Hpr Hs)).
Qed.

Lemma missing_user_info_still_pushes_witness :
  fetch_activity_flags anonymous PNone (PStr "Lame") connected_idle =
    ([], connected_idle, Returns no_flags) /\
  pushed (trace_of (loop_iteration anonymous connected_idle)) =
    [{| details := Some "Lame";
        state := Some "User: 🔴 | Root: 🔴";
        large_image := Some "https://app.hackthebox.com/img/lame.png";
        large_text := None;
        small_image := Some "";
        small_text := Some (PStr "") |}].
Proof.
  apply (missing_user_info_still_pushes anonymous connected_idle (PBool true)
           (PDict [("name", PStr "Lame"); ("avatar", PStr "/img/lame.png")])
           (PStr "Lame") "https://app.hackthebox.com/img/lame.png" (PStr "")).
  - repeat apply conj; reflexivity.
  - repeat apply conj; try reflexivity.
    exists (PStr "/img/lame.png"). split; reflexivity.
Defined.

Lemma no_active_machine_quiet w connection st :
  truthy connection = false ->
  pushed (trace_of (no_active_machine w connection st)) = [].
Proof.
  intros Hc. unfold no_active_machine. run_monad. rewrite Hc.
  destruct (is_None (last_machine st)); simpl.
  - destruct (poll_sleep w) as [[]|e]; reflexivity.
  - destruct (clear_result w) as [[]|e]; simpl; [|reflexivity].
    destruct (poll_sleep w) as [[]|e]; reflexivity.
Qed.

(** X17: with no active machine, nothing is pushed unless the
    connection status is truthy: a status of [false], a missing
    [status], and a connection-status fetch that failed (taken as
    [False]) all leave the presence without the "Connected" display. *)
Theorem nothing_pushed_when_offline w st user connection :
  polls w st user connection ->
  finds w st PNone ->
  truthy connection = false ->
  pushed (trace_of (loop_iteration w st)) = [].
Proof.
  intros Hp Hf Hc. unfold loop_iteration.
  rewrite (try_body_polls w st user connection Hp).
  rewrite (reconcile_finds w st _ user connection PNone Hf). simpl negb. cbv iota.
  rewrite after_after, handle_pushed. unfold after. project.
  change (HttpGet ?p :: ?t) with ([HttpGet p] ++ t).
  rewrite !pushed_app, ensure_connected_pushed, fetch_connection_pushed.
  now rewrite (no_active_machine_quiet w connection _ Hc).
Qed.

Lemma nothing_pushed_when_offline_witness :
  pushed (trace_of (loop_iteration status_down (connected_on "Lame"))) = [].
Proof.
  apply (nothing_pushed_when_offline status_down (connected_on "Lame") player (PBool false)).
  - repeat apply conj; reflexivity.
  - reflexivity.
  - reflexivity.
Defined.

(** X21: an active machine without a name is pushed with the details
    "None" and is not recorded: [last_machine] stays [None], so when the
    machine goes away afterwards the presence is not cleared. *)
Theorem nameless_machine_is_not_cleared w1 w2 st u1 c1 a1 av1 d1 f1 u2 c2 :
  last_machine st = PNone ->
  polls w1 st u1 c1 ->
  presents w1 st u1 a1 PNone av1 d1 ->
  scans w1 st u1 PNone f1 ->
  polls w2 (session_of (loop_iteration w1 st)) u2 c2 ->
  finds w2 (session_of (loop_iteration w1 st)) PNone ->
  undisturbed w2 ->
  (exists p, pushed (trace_of (loop_iteration w1 st)) = [p] /\ details p = Some "None") /\
  last_machine (session_of (loop_iteration w1 st)) = PNone /\
  clears (trace_of (loop_iteration w2 (session_of (loop_iteration w1 st)))) = 0%nat.
Proof.
  intros Hl Hp1 Hpr1 Hs1 Hp2 Hf2 Hu2.
  destruct (present_iteration _ _ _ _ _ _ _ _ _ Hp1 Hpr1 Hs1) as (Hpush & Hlast).
  rewrite Hl in Hlast. simpl in Hlast.
  repeat apply conj.
  - eexists. split; [exact Hpush|reflexivity].
  - exact Hlast.
  - destruct (absent_iteration_clears w2 _ u2 c2 Hp2 Hf2 Hu2) as (Hc & _).
    now rewrite Hlast in Hc.
Qed.

Lemma nameless_machine_is_not_cleared_witness :
  (exists p, pushed (trace_of (loop_iteration nameless connected_idle)) = [p] /\
             details p = Some "None") /\
  last_machine (session_of (loop_iteration nameless connected_idle)) = PNone /\
  clears (trace_of (loop_iteration idle (session_of (loop_iteration nameless connected_idle))))
  = 0%nat.
Proof.
  apply (nameless_machine_is_not_cleared nameless idle connected_idle
           player (PBool true) (PDict [("avatar", PStr "/img/lame.png")])
           "https://app.hackthebox.com/img/lame.png" (PStr "player") no_flags
           player (PBool true)).
  - reflexivity.
  - repeat apply conj; reflexivity.
  - repeat apply conj; try reflexivity.
    exists (PStr "/img/lame.png"). split; reflexivity.
  - reflexivity.
  - repeat apply conj; reflexivity.
  - reflexivity.
  - repeat apply conj; reflexivity.
Defined.

(** ** The request address (line 39) *)

Lemma rstrip_one c s : rstrip c (s ++ String c "") = rstrip c s.
Proof.
  induction s as [|a s IH]; simpl.
  - now rewrite Ascii.eqb_refl.
  - now rewrite IH.
Qed.

Lemma append_assoc (s1 s2 s3 : string) : ((s1 ++ s2) ++ s3 = s1 ++ (s2 ++ s3))%string.
Proof. induction s1 as [|a s1 IH]; simpl; [reflexivity|now rewrite IH]. Qed.

Lemma slashes_end n : (slashes (S n) = slashes n ++ String "/" "")%string.
Proof. induction n as [|n IH]; [reflexivity|]. simpl in *. now rewrite <- IH. Qed.

Lemma rstrip_slashes s n : rstrip "/" (s ++ slashes n) = rstrip "/" s.
Proof.
  induction n as [|n IH].
  - simpl. f_equal. induction s as [|a s IHs]; simpl; [reflexivity|now rewrite IHs].
  - rewrite slashes_end, <- append_assoc, rstrip_one. exact IH.
Qed.

Lemma rstrip_last c s a : last_char (rstrip c s) = Some a -> Ascii.eqb a c = false.
Proof.
  revert a. induction s as [|b s IH]; intros a; simpl; [discriminate|].
  destruct (rstrip c s) as [|b' r] eqn:Hr.
  - destruct (Ascii.eqb b c) eqn:Hb; simpl; [discriminate|].
    intros H. inversion H. now subst.
  - intros H. apply IH. exact H.
Qed.

Lemma rstrip_fixed c s : rstrip c (rstrip c s) = rstrip c s.
Proof.
  induction s as [|b s IH]; simpl; [reflexivity|].
  destruct (rstrip c s) as [|b' r] eqn:Hr.
  - destruct (Ascii.eqb b c) eqn:Hb; simpl; [reflexivity|]. now rewrite Hb.
  - simpl in *. rewrite IH. reflexivity.
Qed.

(** X18: trailing slashes of the API base make no difference to the
    address a request goes to; the base the path is appended to never
    ends with "/", so a path that starts with "/" is joined by exactly
    one slash; stripping is idempotent. *)
Theorem request_url_ignores_trailing_slashes api_base path n :
  request_url (api_base ++ slashes n) path = request_url api_base path /\
  (forall a, last_char (rstrip "/" api_base) = Some a -> Ascii.eqb a "/" = false) /\
  request_url (rstrip "/" api_base) path = request_url api_base path.
Proof.
  unfold request_url. repeat apply conj.
  - now rewrite rstrip_slashes.
  - intros a. apply rstrip_last.
  - now rewrite rstrip_fixed.
Qed.

(** ** The start of [main] (lines 67-73) *)

(** X19: [main] starts unconnected: after its banner the first thing
    it does is call [rpc.connect()], before any HTTP request, whatever
    the world. *)
Theorem main_connects_first w ws :
  exists t,
    trace_of (main (w :: ws)) = Print "Starting htb-presence..." :: RpcConnect :: t.
Proof.
  assert (H : exists t, trace_of (loop_iteration w initial_session) = RpcConnect :: t).
  { unfold loop_iteration.
    destruct (handle_trace w (try_body w initial_session)) as (t' & ->).
    unfold try_body, bind at 1, ensure_connected. run_monad.
    destruct (connect_result w) as [[]|e]; simpl.
    - match goal with
      | |- context [match ?r with _ => _ end] => destruct r as [[t0 s0] [[]|e0]]
      end; simpl; eexists; reflexivity.
    - destruct (is_Exception e); simpl; [|eexists; reflexivity].
      destruct (reconnect_sleep w) as [[]|e']; simpl; eexists; reflexivity. }
  destruct H as (t & Ht). unfold main. cbn [main_loop].
  destruct (loop_iteration w initial_session) as [[t0 st0] c]. rewrite trace_of_run in Ht.
  subst t0. destruct c.
  - destruct (main_loop ws st0) as [[t' st'] c']. eexists. reflexivity.
  - eexists. reflexivity.
  - eexists. reflexivity.
Qed.
